(** * RSI scanner: a shallow embedding of [main.py] and its properties

    The development follows the layout of the script:

    - [Float64]   the values of [numpy.float64] that the indicator handles
                  (finite numbers, NaN and the two infinities), with exact
                  rational arithmetic on the finite ones (rounding is not
                  modelled; signed zeros are not distinguished);
    - [Pandas]    the few [pandas.Series] / [numpy] operations used by
                  [calculate_precise_rsi];
    - [Indicator] [calculate_precise_rsi] itself;
    - [Text]      [str.strip], [str.upper], [str.endswith], [readlines];
    - [Scanner]   the effectful part: the symbol cache, the three HTTP
                  endpoints, the console, and the functions
                  [get_usdt_pairs], [get_current_price],
                  [fetch_and_calculate_rsi], [process_symbol],
                  [find_low_rsi_coins]. *)

From Stdlib Require Import String Ascii.
From Stdlib Require Import QArith Qminmax Qabs Lqa ZArith Lia List Bool.
From Stdlib Require Import Permutation.
Import ListNotations.

(** ** Python results: a value or a raised exception *)

Inductive exn : Type :=
| ZeroDivisionError
| ConnectionError
| TypeError_format_None.

Inductive pyresult (A : Type) : Type :=
| Ok (a : A)
| Raise (e : exn).

Arguments Ok {A} a.
Arguments Raise {A} e.

(** ** numpy.float64 without rounding *)

Module Float64.

Inductive fl : Type :=
| NaN
| PInf
| NInf
| Fin (q : Q).

Definition is_nan (x : fl) : bool :=
  match x with NaN => true | _ => false end.

(** Equality of values up to the representation of the rational. *)
Definition fl_equiv (x y : fl) : Prop :=
  match x, y with
  | NaN, NaN | PInf, PInf | NInf, NInf => True
  | Fin a, Fin b => a == b
  | _, _ => False
  end.

Definition of_nat (n : nat) : fl := Fin (inject_Z (Z.of_nat n)).

Definition fl_neg (x : fl) : fl :=
  match x with
  | NaN => NaN
  | PInf => NInf
  | NInf => PInf
  | Fin a => Fin (- a)
  end.

Definition fl_add (x y : fl) : fl :=
  match x, y with
  | NaN, _ | _, NaN => NaN
  | PInf, NInf | NInf, PInf => NaN
  | PInf, _ | _, PInf => PInf
  | NInf, _ | _, NInf => NInf
  | Fin a, Fin b => Fin (a + b)
  end.

Definition fl_sub (x y : fl) : fl :=
  match x, y with
  | NaN, _ | _, NaN => NaN
  | PInf, PInf | NInf, NInf => NaN
  | PInf, _ | _, NInf => PInf
  | NInf, _ | _, PInf => NInf
  | Fin a, Fin b => Fin (a - b)
  end.

Definition fl_mul (x y : fl) : fl :=
  match x, y with
  | NaN, _ | _, NaN => NaN
  | PInf, PInf | NInf, NInf => PInf
  | PInf, NInf | NInf, PInf => NInf
  | PInf, Fin b | Fin b, PInf =>
      match b ?= 0 with Eq => NaN | Gt => PInf | Lt => NInf end
  | NInf, Fin b | Fin b, NInf =>
      match b ?= 0 with Eq => NaN | Gt => NInf | Lt => PInf end
  | Fin a, Fin b => Fin (a * b)
  end.

(** Array division: a zero divisor gives NaN or an infinity, never an
    exception. *)
Definition fl_div (x y : fl) : fl :=
  match x, y with
  | NaN, _ | _, NaN => NaN
  | (PInf | NInf), (PInf | NInf) => NaN
  | Fin _, (PInf | NInf) => Fin 0
  | PInf, Fin b => match b ?= 0 with Lt => NInf | _ => PInf end
  | NInf, Fin b => match b ?= 0 with Lt => PInf | _ => NInf end
  | Fin a, Fin b =>
      if Qeq_bool b 0
      then match a ?= 0 with Eq => NaN | Gt => PInf | Lt => NInf end
      else Fin (a / b)
  end.

(** [x < y]; every comparison with NaN is false. *)
Definition fl_ltb (x y : fl) : bool :=
  match x, y with
  | NaN, _ | _, NaN => false
  | _, NInf => false
  | NInf, _ => true
  | PInf, _ => false
  | Fin _, PInf => true
  | Fin a, Fin b => negb (Qle_bool b a)
  end.

(** [x != y]; NaN differs from everything. *)
Definition fl_neb (x y : fl) : bool :=
  match x, y with
  | NaN, _ | _, NaN => true
  | PInf, PInf | NInf, NInf => false
  | Fin a, Fin b => negb (Qeq_bool a b)
  | _, _ => true
  end.

End Float64.
Import Float64.

(** ** pandas.Series and numpy arrays of float64 *)

Module Pandas.

Definition series := list fl.

(** [s.diff()]: first entry NaN, then [s[i] - s[i-1]]. *)
Fixpoint diff_from (prev : fl) (s : series) : series :=
  match s with
  | [] => []
  | x :: t => fl_sub x prev :: diff_from x t
  end.

Definition diff (s : series) : series :=
  match s with
  | [] => []
  | x :: t => NaN :: diff_from x t
  end.

(** [s.clip(lower=lo)] and [s.clip(upper=hi)]; NaN entries stay NaN. *)
Definition clip_lower (lo : fl) (s : series) : series :=
  map (fun x => if fl_ltb x lo then lo else x) s.

Definition clip_upper (hi : fl) (s : series) : series :=
  map (fun x => if fl_ltb hi x then hi else x) s.

(** [-s] *)
Definition neg (s : series) : series := map fl_neg s.

(** [s[:k]] *)
Definition head (k : nat) (s : series) : series := firstn k s.

(** [s.mean()] with the default [skipna=True]: NaN entries are left out of
    both the sum and the count; the mean of nothing is NaN. *)
Definition dropna (s : series) : series :=
  filter (fun x => negb (is_nan x)) s.

Definition sum (s : series) : fl := fold_left fl_add s (Fin 0).

Definition mean (s : series) : fl :=
  match dropna s with
  | [] => NaN
  | v => fl_div (sum v) (of_nat (length v))
  end.

(** [s.iloc[i]], used only with [i < len(s)]. *)
Definition iloc (s : series) (i : nat) : fl := nth i s NaN.

(** [np.divide(a, b, out=np.zeros_like(a), where=b != 0)]: where the mask
    is false the entry of [out] is left as it was, zero. *)
Definition divide_where_nonzero (a b : list fl) : list fl :=
  map (fun ab => if fl_neb (snd ab) (Fin 0) then fl_div (fst ab) (snd ab)
                 else Fin 0)
      (combine a b).

End Pandas.

(** ** The indicator *)

Module Indicator.
Import Pandas.

Definition RSI_THRESHOLD : Q := 30.
Definition RSI_PERIOD : nat := 14.

(** Python's [1 / period] on integers. *)
Definition py_inv (period : nat) : pyresult fl :=
  match period with
  | O => Raise ZeroDivisionError
  | S _ => Ok (Fin (1 / inject_Z (Z.of_nat period)))
  end.

Definition gain_of (prices : list Q) : series :=
  clip_lower (Fin 0) (diff (map Fin prices)).

Definition loss_of (prices : list Q) : series :=
  neg (clip_upper (Fin 0) (diff (map Fin prices))).

Definition seed_gain (prices : list Q) (period : nat) : fl :=
  mean (head period (gain_of prices)).

Definition seed_loss (prices : list Q) (period : nat) : fl :=
  mean (head period (loss_of prices)).

(** One pass of the [for] body: the new average from the current value
    and the last average. *)
Definition ema (alpha current prev : fl) : fl :=
  fl_add (fl_mul current alpha) (fl_mul prev (fl_sub (Fin 1) alpha)).

Definition loop_body (alpha : fl) (gain loss : series)
    (st : list fl * list fl) (i : nat) : list fl * list fl :=
  let (gains, losses) := st in
  let current_gain := iloc gain i in
  let current_loss := iloc loss i in
  let avg_gain := ema alpha current_gain (last gains NaN) in
  let avg_loss := ema alpha current_loss (last losses NaN) in
  (gains ++ [avg_gain], losses ++ [avg_loss]).

(** The lists [gains] and [losses] when the loop is over. *)
Definition smoothed (alpha : fl) (prices : list Q) (period : nat)
    : list fl * list fl :=
  fold_left (loop_body alpha (gain_of prices) (loss_of prices))
            (seq period (length prices - period))
            ([seed_gain prices period], [seed_loss prices period]).

Definition rsi_of_rs (rs : fl) : fl :=
  fl_sub (Fin 100) (fl_div (Fin 100) (fl_add (Fin 1) rs)).

Definition calculate_precise_rsi (prices : list Q) (period : nat)
    : pyresult fl :=
  match py_inv period with
  | Raise e => Raise e
  | Ok alpha =>
      let (gains, losses) := smoothed alpha prices period in
      let rs := divide_where_nonzero gains losses in
      let rsi := map rsi_of_rs rs in
      Ok (last rsi NaN)
  end.

End Indicator.
Import Indicator.

(** ** Text: the [str] methods the script calls

    A character is a code point below 256.  [strip] and [readlines] are
    exact on such text; [upper] is the case mapping of ASCII and is exact
    on ASCII text, which is what symbols hold. *)

Module Text.

Local Open Scope char_scope.

(** [c.isspace()] for the code points below 256: tab, line feed, vertical
    tab, form feed, carriage return, the four separators 28 to 31, the
    space, next line (U+0085) and no-break space (U+00A0). *)
Definition is_space (c : ascii) : bool :=
  let n := nat_of_ascii c in
  ((9 <=? n) && (n <=? 13) || (28 <=? n) && (n <=? 32)
   || (n =? 133) || (n =? 160))%nat.

Definition is_lower (c : ascii) : bool :=
  let n := nat_of_ascii c in ((97 <=? n) && (n <=? 122))%nat.

Definition upper_char (c : ascii) : ascii :=
  if is_lower c then ascii_of_nat (nat_of_ascii c - 32) else c.

Local Open Scope string_scope.

Fixpoint upper (s : string) : string :=
  match s with
  | EmptyString => EmptyString
  | String c t => String (upper_char c) (upper t)
  end.


Fixpoint lstrip (s : string) : string :=
  match s with
  | EmptyString => EmptyString
  | String c t => if is_space c then lstrip t else s
  end.

Fixpoint rstrip (s : string) : string :=
  match s with
  | EmptyString => EmptyString
  | String c t =>
      match rstrip t with
      | EmptyString => if is_space c then EmptyString else String c EmptyString
      | r => String c r
      end
  end.

(** [s.strip()] *)
Definition strip (s : string) : string := rstrip (lstrip s).

Fixpoint all_space (s : string) : bool :=
  match s with
  | EmptyString => true
  | String c t => is_space c && all_space t
  end.

Fixpoint no_space (s : string) : bool :=
  match s with
  | EmptyString => true
  | String c t => negb (is_space c) && no_space t
  end.

(** Text of ASCII characters only, code points below 128. *)
Fixpoint ascii_text (s : string) : bool :=
  match s with
  | EmptyString => true
  | String c t => (nat_of_ascii c <? 128)%nat && ascii_text t
  end.

(** [s.endswith(suffix)] *)
Definition endswith (s suffix : string) : bool :=
  let n := String.length s in
  let m := String.length suffix in
  (m <=? n)%nat && String.eqb (substring (n - m) m s) suffix.

(** Truth value of a [str] in a condition. *)
Definition truthy (s : string) : bool :=
  match s with EmptyString => false | _ => true end.

(** Reading in text mode turns [\r\n] and a lone [\r] into [\n]. *)
Fixpoint universal_newlines (s : string) : string :=
  match s with
  | EmptyString => EmptyString
  | String c t =>
      if Ascii.eqb c "013"%char
      then String "010"%char
             match t with
             | String c' t' =>
                 if Ascii.eqb c' "010"%char then universal_newlines t'
                 else universal_newlines t
             | EmptyString => EmptyString
             end
      else String c (universal_newlines t)
  end.

(** The lines of a text, each with its line feed when it has one. *)
Fixpoint split_keepends (s : string) : list string :=
  match s with
  | EmptyString => []
  | String c t =>
      if Ascii.eqb c "010"%char then String c EmptyString :: split_keepends t
      else match split_keepends t with
           | [] => [String c EmptyString]
           | l :: ls => String c l :: ls
           end
  end.

(** [f.readlines()] on a file opened with [open(path, "r")]. *)
Definition readlines (content : string) : list string :=
  split_keepends (universal_newlines content).

Definition newline : string := String "010"%char EmptyString.

End Text.
Import Text.

(** ** The scanner: cache file, HTTP endpoints, console *)

Module Scanner.

Local Open Scope string_scope.

(** One entry of [data['symbols']] in the exchange-info answer. *)
Record symbol_info : Type := { symbol : string; status : string }.

(** What [requests.get] does: raise, or return a response. *)
Inductive reply (A : Type) : Type :=
| NoConnection
| Response (status_code : nat) (json : A).

Arguments NoConnection {A}.
Arguments Response {A} status_code json.

(** Everything outside the process: the environment variable and the
    answers of the three endpoints.  A kline is reduced to its close,
    [float(kline[4])]. *)
Record world : Type := {
  env_SYMBOL : option string;
  exchange_info : reply (list symbol_info);
  klines : string -> reply (list Q);
  ticker_price : string -> reply Q
}.

Inductive request : Type :=
| GetExchangeInfo
| GetKlines (symbol : string)
| GetPrice (symbol : string).

(** The lines written by [print_flush], before formatting. *)
Inductive line : Type :=
| CoinsFileFound
| FetchingPairs
| PairsFound (n : nat)
| FailedPairs
| FailedPrice (symbol : string)
| NotEnoughData (symbol : string)
| FailedData (symbol : string) (code : nat)
| Match (symbol : string) (rsi : fl) (price : Q)
| ErrorOccurred (symbol : string) (e : exn)
| QueryingSingle (symbol : string)
| QueryingAll.

Definition is_match (l : line) : bool :=
  match l with Match _ _ _ => true | _ => false end.

(** What the process changes: the cache file [coins.txt] (absent, or its
    content), the console, and the requests sent so far. *)
Record state : Type := {
  coins_file : option string;
  console : list line;
  sent : list request
}.

(** Computations: state passing with exceptions; the state survives a
    raise. *)
Definition M (A : Type) : Type := state -> pyresult A * state.

Definition ret {A} (a : A) : M A := fun st => (Ok a, st).

Definition raise {A} (e : exn) : M A := fun st => (Raise e, st).

Definition bind {A B} (m : M A) (k : A -> M B) : M B :=
  fun st =>
    match m st with
    | (Ok a, st') => k a st'
    | (Raise e, st') => (Raise e, st')
    end.

(** [try: m  except Exception as e: h e] *)
Definition try_except {A} (m : M A) (h : exn -> M A) : M A :=
  fun st =>
    match m st with
    | (Ok a, st') => (Ok a, st')
    | (Raise e, st') => h e st'
    end.

Notation "x <- m ;; k" := (bind m (fun x => k))
  (at level 61, m at next level, right associativity).
Notation "m ;; k" := (bind m (fun _ => k))
  (at level 61, right associativity).

Definition print_flush (l : line) : M unit :=
  fun st => (Ok tt, {| coins_file := coins_file st;
                       console := console st ++ [l];
                       sent := sent st |}).

Definition requests_get {A} (r : request) (answer : reply A) : M (nat * A) :=
  fun st =>
    let st' := {| coins_file := coins_file st;
                  console := console st;
                  sent := sent st ++ [r] |} in
    match answer with
    | NoConnection => (Raise ConnectionError, st')
    | Response code body => (Ok (code, body), st')
    end.

Definition read_coins_file : M (option string) :=
  fun st => (Ok (coins_file st), st).

Definition write_coins_file (content : string) : M unit :=
  fun st => (Ok tt, {| coins_file := Some content;
                       console := console st;
                       sent := sent st |}).

(** What the loop of [f.write(pair + "\n")] leaves in the file. *)
Fixpoint written (pairs : list string) : string :=
  match pairs with
  | [] => ""
  | p :: rest => (p ++ newline) ++ written rest
  end.

Definition getenv (w : world) (default : string) : string :=
  match env_SYMBOL w with Some s => s | None => default end.

Definition get_usdt_pairs (w : world) : M (list string) :=
  cached <- read_coins_file ;;
  match cached with
  | Some content =>
      print_flush CoinsFileFound ;;
      ret (map strip (readlines content))
  | None =>
      print_flush FetchingPairs ;;
      response <- requests_get GetExchangeInfo (exchange_info w) ;;
      let (status_code, data) := response in
      if (status_code =? 200)%nat then
        let usdt_pairs :=
          map symbol
              (filter (fun s => endswith (symbol s) "USDT"
                                && String.eqb (status s) "TRADING") data) in
        print_flush (PairsFound (length usdt_pairs)) ;;
        write_coins_file (written usdt_pairs) ;;
        ret usdt_pairs
      else
        print_flush FailedPairs ;;
        ret []
  end.

Definition get_current_price (w : world) (sym : string) : M (option Q) :=
  response <- requests_get (GetPrice sym) (ticker_price w sym) ;;
  let (status_code, price) := response in
  if (status_code =? 200)%nat then ret (Some price)
  else print_flush (FailedPrice sym) ;; ret None.

Definition from_py {A} (r : pyresult A) : M A :=
  match r with Ok a => ret a | Raise e => raise e end.

Definition fetch_and_calculate_rsi (w : world) (sym : string) : M (option fl) :=
  response <- requests_get (GetKlines sym) (klines w sym) ;;
  let (status_code, data) := response in
  if (status_code =? 200)%nat then
    if match data with [] => true | _ => false end
       || (length data <? RSI_PERIOD)%nat
    then print_flush (NotEnoughData sym) ;; ret None
    else
      last_rsi <- from_py (calculate_precise_rsi data RSI_PERIOD) ;;
      ret (Some last_rsi)
  else print_flush (FailedData sym status_code) ;; ret None.

(** The f-string of the match line: [{current_price:.4f}] raises a
    [TypeError] when the price is [None]. *)
Definition match_line (sym : string) (last_rsi : fl) (current_price : option Q)
    : M line :=
  match current_price with
  | Some price => ret (Match sym last_rsi price)
  | None => raise TypeError_format_None
  end.

Definition process_symbol (w : world) (sym : string) : M unit :=
  try_except
    (last_rsi <- fetch_and_calculate_rsi w sym ;;
     match last_rsi with
     | Some v =>
         if fl_ltb v (Fin RSI_THRESHOLD) then
           current_price <- get_current_price w sym ;;
           l <- match_line sym v current_price ;;
           print_flush l
         else ret tt
     | None => ret tt
     end)
    (fun e => print_flush (ErrorOccurred sym e)).

(** [executor.map(process_symbol, symbols)] inside the [with] block, which
    waits for every task.  The tasks are run here one after the other in
    the order of the list; threads only change the order in which whole
    lines and requests of different symbols follow each other. *)
Fixpoint executor_map (f : string -> M unit) (symbols : list string) : M unit :=
  match symbols with
  | [] => ret tt
  | sym :: rest => f sym ;; executor_map f rest
  end.

Definition query_single (w : world) (target_coin : string) : M unit :=
  print_flush (QueryingSingle target_coin) ;;
  process_symbol w target_coin.

Definition query_all (w : world) : M unit :=
  print_flush QueryingAll ;;
  symbols <- get_usdt_pairs w ;;
  executor_map (process_symbol w) symbols.

Definition find_low_rsi_coins (w : world) : M unit :=
  let target_coin := upper (strip (getenv w "")) in
  if truthy target_coin then query_single w target_coin
  else query_all w.

End Scanner.
Import Scanner.

(** ** Notions used in the statements *)

Module Notions.

(** The differences of consecutive closes, [prices[i+1] - prices[i]]; one
    element shorter than the series. *)
Fixpoint deltas_from (prev : Q) (l : list Q) : list Q :=
  match l with
  | [] => []
  | x :: t => (x - prev) :: deltas_from x t
  end.

Definition successive_differences (prices : list Q) : list Q :=
  match prices with
  | [] => []
  | p :: t => deltas_from p t
  end.

(** What [clip(lower=0)] and [-clip(upper=0)] leave of a finite number. *)
Definition gain1 (d : Q) : Q := if negb (Qle_bool 0 d) then 0 else d.
Definition loss1 (d : Q) : Q := - (if negb (Qle_bool d 0) then 0 else d).

Definition Qsum (l : list Q) : Q := fold_left Qplus l 0.

Definition arithmetic_mean (l : list Q) : Q :=
  Qsum l / inject_Z (Z.of_nat (length l)).

(** The value of [alpha] for a non-zero period. *)
Definition alpha_of (period : nat) : Q := 1 / inject_Z (Z.of_nat period).

(** The averages appended by the loop, from the last one before it. *)
Fixpoint ema_trace (alpha : fl) (s : Pandas.series) (a : fl) (idxs : list nat)
    : list fl :=
  match idxs with
  | [] => []
  | i :: t =>
      let a' := ema alpha (Pandas.iloc s i) a in
      a' :: ema_trace alpha s a' t
  end.

(** The loop as a fold over one accumulator. *)
Definition ema_fold (alpha : fl) (s : Pandas.series) (idxs : list nat)
    (seed : fl) : fl :=
  fold_left (fun a i => ema alpha (Pandas.iloc s i) a) idxs seed.

(** One entry of [rs]. *)
Definition rs_of (avg_gain avg_loss : fl) : fl :=
  if fl_neb avg_loss (Fin 0) then fl_div avg_gain avg_loss else Fin 0.

Definition nonneg (x : fl) : Prop :=
  match x with Fin q => 0 <= q | _ => False end.

Definition is_zero (x : fl) : Prop :=
  match x with Fin q => q == 0 | _ => False end.

(** No close from index [from] on is below the one before it. *)
Definition no_decrease_from (from : nat) (prices : list Q) : Prop :=
  forall i, (from <= i)%nat -> (i < length prices)%nat ->
            nth (i - 1) prices 0 <= nth i prices 0.

(** No close of the seed window, the first [period] closes, is below the
    one before it. *)
Definition no_decrease_in_seed (period : nat) (prices : list Q) : Prop :=
  forall i, (1 <= i)%nat -> (i < period)%nat -> (i < length prices)%nat ->
            nth (i - 1) prices 0 <= nth i prices 0.

(** The sequences and the seed as the specification words them: gains and
    losses one element shorter than the series, the seed the mean of their
    first [period] values. *)
Definition spec_gain (prices : list Q) : list Q :=
  map (fun d => Qmax d 0) (successive_differences prices).

Definition spec_loss (prices : list Q) : list Q :=
  map (fun d => Qabs (Qmin d 0)) (successive_differences prices).

Definition spec_seed_gain (prices : list Q) (period : nat) : Q :=
  arithmetic_mean (firstn period (spec_gain prices)).

Definition spec_seed_loss (prices : list Q) (period : nat) : Q :=
  arithmetic_mean (firstn period (spec_loss prices)).

(** The recurrence as the specification words it. *)
Definition wilder_step (period : nat) (current prev : Q) : Q :=
  current / inject_Z (Z.of_nat period)
  + prev * (inject_Z (Z.of_nat period) - 1) / inject_Z (Z.of_nat period).

(** Sample data: the closes [1, 2, ..., n] and [n, ..., 2, 1]. *)
Definition rising (n : nat) : list Q :=
  map (fun k => inject_Z (Z.of_nat k)) (seq 1 n).

Definition falling (n : nat) : list Q := rev (rising n).

Definition fresh : state :=
  {| coins_file := None; console := []; sent := [] |}.

(** A world in which every symbol has the same closes and the same answer
    of the price endpoint. *)
Definition uniform_world (override : option string)
    (info : reply (list symbol_info)) (closes : reply (list Q))
    (price : reply Q) : world :=
  {| env_SYMBOL := override;
     exchange_info := info;
     klines := fun _ => closes;
     ticker_price := fun _ => price |}.

(** The state after more lines and requests, with the file as it was. *)
Definition after (st : state) (lines : list line) (reqs : list request)
    : state :=
  {| coins_file := coins_file st;
     console := console st ++ lines;
     sent := sent st ++ reqs |}.

(** No close from index [from] on is above the one before it. *)
Definition no_increase_from (from : nat) (prices : list Q) : Prop :=
  forall i, (from <= i)%nat -> (i < length prices)%nat ->
            nth i prices 0 <= nth (i - 1) prices 0.

(** The smoothing of the loop on rationals. *)
Definition wilder_fold (alpha : Q) (xs : list Q) (seed : Q) : Q :=
  fold_left (fun a x => x * alpha + a * (1 - alpha)) xs seed.

(** The average the loop ends with, from the differences alone: seeded by
    the mean of the first [period - 1] of them, smoothed over the rest. *)
Definition final_average (period : nat) (xs : list Q) : Q :=
  wilder_fold (alpha_of period) (skipn (period - 1) xs)
    (arithmetic_mean (firstn (period - 1) xs)).

(** A computation that, from every state, gives the same result, appends
    the same lines and requests, and leaves the file alone. *)
Definition steady {A : Type} (m : M A) : Prop :=
  exists r ls rs, forall st, m st = (r, after st ls rs).

(** The lines written and the requests sent for one symbol. *)
Definition lines_of (w : world) (sym : string) : list line :=
  console (snd (process_symbol w sym fresh)).

Definition requests_of (w : world) (sym : string) : list request :=
  sent (snd (process_symbol w sym fresh)).

(** The ways [process_symbol] can go, with the lines and requests of
    each. *)
Inductive outcome (w : world) (sym : string)
    : list line -> list request -> Prop :=
| KlinesUnreachable :
    klines w sym = NoConnection ->
    outcome w sym [ErrorOccurred sym ConnectionError] [GetKlines sym]
| KlinesRefused code data :
    klines w sym = Response code data -> code <> 200%nat ->
    outcome w sym [FailedData sym code] [GetKlines sym]
| KlinesTooFew data :
    klines w sym = Response 200 data -> (length data < RSI_PERIOD)%nat ->
    outcome w sym [NotEnoughData sym] [GetKlines sym]
| NotBelow data v :
    klines w sym = Response 200 data -> (RSI_PERIOD <= length data)%nat ->
    calculate_precise_rsi data RSI_PERIOD = Ok v ->
    fl_ltb v (Fin RSI_THRESHOLD) = false ->
    outcome w sym [] [GetKlines sym]
| PriceUnreachable data v :
    klines w sym = Response 200 data -> (RSI_PERIOD <= length data)%nat ->
    calculate_precise_rsi data RSI_PERIOD = Ok v ->
    fl_ltb v (Fin RSI_THRESHOLD) = true ->
    ticker_price w sym = NoConnection ->
    outcome w sym [ErrorOccurred sym ConnectionError]
      [GetKlines sym; GetPrice sym]
| PriceRefused data v code price :
    klines w sym = Response 200 data -> (RSI_PERIOD <= length data)%nat ->
    calculate_precise_rsi data RSI_PERIOD = Ok v ->
    fl_ltb v (Fin RSI_THRESHOLD) = true ->
    ticker_price w sym = Response code price -> code <> 200%nat ->
    outcome w sym [FailedPrice sym; ErrorOccurred sym TypeError_format_None]
      [GetKlines sym; GetPrice sym]
| Reported data v price :
    klines w sym = Response 200 data -> (RSI_PERIOD <= length data)%nat ->
    calculate_precise_rsi data RSI_PERIOD = Ok v ->
    fl_ltb v (Fin RSI_THRESHOLD) = true ->
    ticker_price w sym = Response 200 price ->
    outcome w sym [Match sym v price] [GetKlines sym; GetPrice sym].

(** When the code writes the match line of a symbol: enough closes, an
    indicator below the threshold, and a price. *)
Definition reportable (w : world) (sym : string) (v : fl) (price : Q)
    : Prop :=
  exists data,
    klines w sym = Response 200 data
    /\ (RSI_PERIOD <= length data)%nat
    /\ calculate_precise_rsi data RSI_PERIOD = Ok v
    /\ fl_ltb v (Fin RSI_THRESHOLD) = true
    /\ ticker_price w sym = Response 200 price.

Definition is_klines_request (r : request) : bool :=
  match r with GetKlines _ => true | _ => false end.

Definition is_match_for (sym : string) (l : line) : bool :=
  match l with Match s _ _ => String.eqb s sym | _ => false end.

(** The pairs kept from the listing: symbol ending in USDT, status
    TRADING. *)
Definition listed_pairs (data : list symbol_info) : list string :=
  map symbol
      (filter (fun s => endswith (symbol s) "USDT"
                        && String.eqb (status s) "TRADING") data).

End Notions.
Import Notions.

(** ** The series of gains and losses *)

Section Series.

Lemma deltas_from_length prev l : length (deltas_from prev l) = length l.
Proof.
  revert prev; induction l as [|x t IH]; intros prev; simpl; [reflexivity|].
  now rewrite IH.
Qed.

Lemma successive_differences_length prices :
  length (successive_differences prices) = (length prices - 1)%nat.
Proof.
  destruct prices as [|p t]; simpl; [reflexivity|].
  rewrite deltas_from_length; lia.
Qed.

Lemma diff_from_Fin prev l :
  Pandas.diff_from (Fin prev) (map Fin l) = map Fin (deltas_from prev l).
Proof.
  revert prev; induction l as [|x t IH]; intros prev; simpl; [reflexivity|].
  now rewrite IH.
Qed.

Lemma gain_of_cons p t :
  gain_of (p :: t) = NaN :: map Fin (map gain1 (deltas_from p t)).
Proof.
  unfold gain_of, Pandas.clip_lower; simpl. f_equal.
  rewrite diff_from_Fin, !map_map. apply map_ext; intros d.
  unfold gain1; simpl. now destruct (Qle_bool 0 d).
Qed.

Lemma loss_of_cons p t :
  loss_of (p :: t) = NaN :: map Fin (map loss1 (deltas_from p t)).
Proof.
  unfold loss_of, Pandas.neg, Pandas.clip_upper; simpl. f_equal.
  rewrite diff_from_Fin, !map_map. apply map_ext; intros d.
  unfold loss1; simpl. now destruct (Qle_bool d 0).
Qed.

Lemma gain_of_length prices : length (gain_of prices) = length prices.
Proof.
  unfold gain_of, Pandas.clip_lower. rewrite length_map.
  destruct prices as [|p t]; simpl; [reflexivity|].
  now rewrite diff_from_Fin, !length_map, deltas_from_length.
Qed.

Lemma loss_of_length prices : length (loss_of prices) = length prices.
Proof.
  unfold loss_of, Pandas.neg, Pandas.clip_upper. rewrite !length_map.
  destruct prices as [|p t]; simpl; [reflexivity|].
  now rewrite diff_from_Fin, !length_map, deltas_from_length.
Qed.

Lemma gain1_nonneg d : 0 <= gain1 d.
Proof.
  unfold gain1. destruct (Qle_bool 0 d) eqn:E; simpl; [|lra].
  now apply Qle_bool_iff.
Qed.

Lemma loss1_nonneg d : 0 <= loss1 d.
Proof.
  unfold loss1. destruct (Qle_bool d 0) eqn:E; simpl; [|lra].
  apply Qle_bool_iff in E. lra.
Qed.

Lemma gain1_max d : gain1 d == Qmax d 0.
Proof.
  unfold gain1. destruct (Qle_bool 0 d) eqn:E; simpl.
  - apply Qle_bool_iff in E. now rewrite Q.max_l.
  - assert (~ 0 <= d) by (rewrite <- Qle_bool_iff; congruence).
    rewrite Q.max_r; [reflexivity | lra].
Qed.

Lemma loss1_abs_min d : loss1 d == Qabs (Qmin d 0).
Proof.
  unfold loss1. destruct (Qle_bool d 0) eqn:E; simpl.
  - apply Qle_bool_iff in E. rewrite Q.min_l by assumption.
    rewrite Qabs_neg by assumption. reflexivity.
  - assert (~ d <= 0) by (rewrite <- Qle_bool_iff; congruence).
    rewrite Q.min_r by lra. reflexivity.
Qed.

Lemma nth_deltas_from prev l i :
  (i < length l)%nat ->
  nth i (deltas_from prev l) 0 = nth i l 0 - nth i (prev :: l) 0.
Proof.
  revert prev i; induction l as [|x t IH]; intros prev i Hi; simpl in Hi; [lia|].
  destruct i as [|i]; [reflexivity|].
  simpl deltas_from. cbn [nth]. rewrite IH by lia. reflexivity.
Qed.

End Series.

(** ** The seed averages *)

Section Seed.

Lemma fold_add_Fin v a :
  fold_left fl_add (map Fin v) (Fin a) = Fin (fold_left Qplus v a).
Proof.
  revert a; induction v as [|x t IH]; intros a; simpl; [reflexivity|].
  apply IH.
Qed.

Lemma dropna_Fin v : Pandas.dropna (map Fin v) = map Fin v.
Proof.
  unfold Pandas.dropna. induction v as [|x t IH]; simpl; [reflexivity|].
  now rewrite IH.
Qed.

Lemma inject_nat_pos n : (0 < n)%nat -> 0 < inject_Z (Z.of_nat n).
Proof.
  intros H. change 0 with (inject_Z 0). rewrite <- Zlt_Qlt. lia.
Qed.

Lemma Qeq_bool_false_of_pos q : 0 < q -> Qeq_bool q 0 = false.
Proof.
  intros H. destruct (Qeq_bool q 0) eqn:E; [|reflexivity].
  apply Qeq_bool_iff in E. lra.
Qed.

Lemma mean_Fin v :
  v <> [] -> Pandas.mean (map Fin v) = Fin (arithmetic_mean v).
Proof.
  intros Hv. unfold Pandas.mean. rewrite dropna_Fin.
  destruct v as [|x t]; [congruence|].
  cbn [map]. unfold Pandas.sum, of_nat, arithmetic_mean, Qsum.
  change (Fin x :: map Fin t) with (map Fin (x :: t)).
  rewrite fold_add_Fin, length_map. unfold fl_div.
  rewrite Qeq_bool_false_of_pos; [reflexivity|].
  apply inject_nat_pos. simpl; lia.
Qed.

(** The mean over a window that starts with the NaN of [diff]: the NaN is
    skipped, the rest is averaged. *)
Lemma mean_head_NaN_cons k v :
  firstn k v <> [] ->
  Pandas.mean (Pandas.head (S k) (NaN :: map Fin v))
  = Fin (arithmetic_mean (firstn k v)).
Proof.
  intros Hv. unfold Pandas.head. cbn [firstn].
  rewrite <- (mean_Fin _ Hv). unfold Pandas.mean.
  cbn [Pandas.dropna filter is_nan negb].
  fold (Pandas.dropna (firstn k (map Fin v))).
  now rewrite firstn_map.
Qed.

Lemma firstn_nonempty (A : Type) k (v : list A) :
  (1 <= k)%nat -> (1 <= length v)%nat -> firstn k v <> [].
Proof.
  intros Hk Hv E. apply (f_equal (@length A)) in E.
  rewrite length_firstn in E. simpl in E. lia.
Qed.

Lemma seed_gain_mean prices period :
  (2 <= period)%nat -> (2 <= length prices)%nat ->
  seed_gain prices period
  = Fin (arithmetic_mean
           (firstn (period - 1) (map gain1 (successive_differences prices)))).
Proof.
  intros Hp Hn. unfold seed_gain.
  destruct prices as [|p t]; [simpl in Hn; lia|].
  destruct period as [|k]; [lia|].
  rewrite gain_of_cons. replace (S k - 1)%nat with k by lia.
  apply mean_head_NaN_cons. apply firstn_nonempty; [lia|].
  simpl. rewrite length_map, deltas_from_length. simpl in Hn; lia.
Qed.

Lemma seed_loss_mean prices period :
  (2 <= period)%nat -> (2 <= length prices)%nat ->
  seed_loss prices period
  = Fin (arithmetic_mean
           (firstn (period - 1) (map loss1 (successive_differences prices)))).
Proof.
  intros Hp Hn. unfold seed_loss.
  destruct prices as [|p t]; [simpl in Hn; lia|].
  destruct period as [|k]; [lia|].
  rewrite loss_of_cons. replace (S k - 1)%nat with k by lia.
  apply mean_head_NaN_cons. apply firstn_nonempty; [lia|].
  simpl. rewrite length_map, deltas_from_length. simpl in Hn; lia.
Qed.

Lemma fold_plus_nonneg v a :
  0 <= a -> Forall (fun x => 0 <= x) v -> 0 <= fold_left Qplus v a.
Proof.
  revert a; induction v as [|x t IH]; intros a Ha Hv; simpl; [assumption|].
  inversion Hv; subst. apply IH; [lra | assumption].
Qed.

Lemma fold_plus_zero v a :
  a == 0 -> Forall (fun x => x == 0) v -> fold_left Qplus v a == 0.
Proof.
  revert a; induction v as [|x t IH]; intros a Ha Hv; simpl; [assumption|].
  inversion Hv; subst. apply IH; [lra | assumption].
Qed.

Lemma fold_plus_ge v a :
  Forall (fun x => 0 <= x) v -> a <= fold_left Qplus v a.
Proof.
  revert a; induction v as [|x t IH]; intros a Hv; simpl; [lra|].
  inversion Hv; subst. apply Qle_trans with (a + x); [lra|].
  now apply IH.
Qed.

Lemma fold_plus_pos v a :
  0 <= a -> Forall (fun x => 0 <= x) v -> Exists (fun x => 0 < x) v ->
  0 < fold_left Qplus v a.
Proof.
  revert a; induction v as [|x t IH]; intros a Ha Hv He; simpl.
  - inversion He.
  - inversion Hv as [|? ? Hx Ht]; subst.
    inversion He as [? ? Hx'|? ? Ht']; subst.
    + apply Qlt_le_trans with (a + x); [lra|]. now apply fold_plus_ge.
    + apply IH; [lra | assumption | assumption].
Qed.

Lemma arithmetic_mean_nonneg v :
  Forall (fun x => 0 <= x) v -> 0 <= arithmetic_mean v.
Proof.
  intros Hv. unfold arithmetic_mean.
  destruct v as [|x t].
  - simpl. unfold Qsum; simpl. unfold Qdiv, Qinv; simpl. lra.
  - apply Qle_shift_div_l.
    + apply inject_nat_pos. simpl; lia.
    + rewrite Qmult_0_l. apply fold_plus_nonneg; [lra | assumption].
Qed.

Lemma arithmetic_mean_zero v :
  Forall (fun x => x == 0) v -> arithmetic_mean v == 0.
Proof.
  intros Hv. unfold arithmetic_mean, Qsum.
  rewrite (fold_plus_zero v 0); [|reflexivity|assumption].
  unfold Qdiv. lra.
Qed.

Lemma arithmetic_mean_pos v :
  Forall (fun x => 0 <= x) v -> Exists (fun x => 0 < x) v ->
  0 < arithmetic_mean v.
Proof.
  intros Hv He. unfold arithmetic_mean.
  destruct v as [|x t]; [inversion He|].
  apply Qlt_shift_div_l.
  - apply inject_nat_pos. simpl; lia.
  - rewrite Qmult_0_l. apply fold_plus_pos; [lra | assumption | assumption].
Qed.

End Seed.

(** ** The smoothing loop *)

Section Loop.

Lemma loop_unfold alpha gain loss idxs gs ls :
  fold_left (loop_body alpha gain loss) idxs (gs, ls)
  = (gs ++ ema_trace alpha gain (last gs NaN) idxs,
     ls ++ ema_trace alpha loss (last ls NaN) idxs).
Proof.
  revert gs ls; induction idxs as [|i t IH]; intros gs ls.
  - simpl. now rewrite !app_nil_r.
  - cbn [fold_left loop_body]. rewrite IH, !last_last.
    cbn [ema_trace]. now rewrite <- !app_assoc.
Qed.

Lemma ema_trace_length alpha s a idxs :
  length (ema_trace alpha s a idxs) = length idxs.
Proof.
  revert a; induction idxs as [|i t IH]; intros a; simpl; [reflexivity|].
  now rewrite IH.
Qed.

Lemma last_cons_trace alpha s a idxs :
  last (a :: ema_trace alpha s a idxs) NaN = ema_fold alpha s idxs a.
Proof.
  revert a; induction idxs as [|i t IH]; intros a; [reflexivity|].
  cbn [ema_trace].
  change (last (a :: ?x :: ?l) NaN) with (last (x :: l) NaN).
  rewrite IH. reflexivity.
Qed.

Lemma nth_cons_trace alpha s a idxs k :
  (k < length idxs)%nat ->
  nth (S k) (a :: ema_trace alpha s a idxs) NaN
  = ema alpha (Pandas.iloc s (nth k idxs O))
        (nth k (a :: ema_trace alpha s a idxs) NaN).
Proof.
  revert a k; induction idxs as [|i t IH]; intros a k Hk; simpl in Hk; [lia|].
  destruct k as [|k]; [reflexivity|].
  cbn [ema_trace]. change (nth (S (S k)) (a :: ?l) NaN) with (nth (S k) l NaN).
  rewrite IH by lia. reflexivity.
Qed.

Lemma smoothed_trace alpha prices period :
  smoothed alpha prices period
  = (seed_gain prices period ::
       ema_trace alpha (gain_of prices) (seed_gain prices period)
         (seq period (length prices - period)),
     seed_loss prices period ::
       ema_trace alpha (loss_of prices) (seed_loss prices period)
         (seq period (length prices - period))).
Proof. unfold smoothed. now rewrite loop_unfold. Qed.

Lemma last_default_irrelevant (A : Type) (l : list A) d d' :
  l <> [] -> last l d = last l d'.
Proof.
  induction l as [|x t IH]; intros H; [congruence|].
  destruct t as [|y t]; [reflexivity|].
  cbn [last]. apply IH. discriminate.
Qed.

Lemma last_map_cons (A B : Type) (f : A -> B) x l d d' :
  last (map f (x :: l)) d' = f (last (x :: l) d).
Proof.
  revert x; induction l as [|y t IH]; intros x; [reflexivity|].
  change (last (map f (x :: y :: t)) d') with (last (map f (y :: t)) d').
  now rewrite IH.
Qed.

Lemma last_combine_cons (A B : Type) x (l : list A) y (m : list B) da db d :
  length l = length m ->
  last (combine (x :: l) (y :: m)) d = (last (x :: l) da, last (y :: m) db).
Proof.
  revert x y m; induction l as [|x' l IH]; intros x y m Hlen;
    destruct m as [|y' m]; simpl in Hlen; try discriminate; [reflexivity|].
  change (last (combine (x :: x' :: l) (y :: y' :: m)) d)
    with (last (combine (x' :: l) (y' :: m)) d).
  rewrite IH by congruence. reflexivity.
Qed.

(** The value returned is the indicator of the two averages the fold ends
    with. *)
Lemma calculate_precise_rsi_fold prices period :
  (1 <= period)%nat ->
  calculate_precise_rsi prices period
  = Ok (rsi_of_rs
          (rs_of
             (ema_fold (Fin (alpha_of period)) (gain_of prices)
                (seq period (length prices - period)) (seed_gain prices period))
             (ema_fold (Fin (alpha_of period)) (loss_of prices)
                (seq period (length prices - period)) (seed_loss prices period)))).
Proof.
  intros Hp. unfold calculate_precise_rsi, py_inv.
  destruct period as [|k]; [lia|].
  fold (alpha_of (S k)). rewrite smoothed_trace.
  unfold Pandas.divide_where_nonzero. f_equal.
  set (gs := ema_trace _ (gain_of prices) _ _).
  set (ls := ema_trace _ (loss_of prices) _ _).
  assert (Hlen : length gs = length ls)
    by (unfold gs, ls; now rewrite !ema_trace_length).
  destruct (combine (seed_gain prices (S k) :: gs) (seed_loss prices (S k) :: ls))
    as [|ab abs] eqn:E; [discriminate|].
  rewrite map_map, (last_map_cons _ _ _ ab abs (NaN, NaN)).
  rewrite <- E, (@last_combine_cons _ _ _ gs _ ls NaN NaN _ Hlen).
  unfold gs, ls. rewrite !last_cons_trace. reflexivity.
Qed.

End Loop.

(** ** Invariants of the averages *)

Section Invariants.

Lemma alpha_of_bounds period :
  (1 <= period)%nat -> 0 < alpha_of period /\ alpha_of period <= 1.
Proof.
  intros Hp. unfold alpha_of.
  assert (H1 : 1 <= inject_Z (Z.of_nat period)).
  { change 1 with (inject_Z 1). rewrite <- Zle_Qle. lia. }
  split.
  - apply Qlt_shift_div_l; lra.
  - apply Qle_shift_div_r; lra.
Qed.

Lemma ema_Fin alpha c a :
  ema (Fin alpha) (Fin c) (Fin a) = Fin (c * alpha + a * (1 - alpha)).
Proof. reflexivity. Qed.

Lemma ema_nonneg alpha c a :
  0 <= alpha -> alpha <= 1 -> nonneg c -> nonneg a ->
  nonneg (ema (Fin alpha) c a).
Proof.
  intros H0 H1 Hc Ha. destruct c as [| | |c], a as [| | |a]; simpl in *;
    try contradiction.
  assert (0 <= c * alpha) by (apply Qmult_le_0_compat; lra).
  assert (0 <= a * (1 - alpha)) by (apply Qmult_le_0_compat; lra).
  lra.
Qed.

Lemma ema_zero alpha c a :
  is_zero c -> is_zero a -> is_zero (ema (Fin alpha) c a).
Proof.
  intros Hc Ha. destruct c as [| | |c], a as [| | |a]; simpl in *;
    try contradiction.
  rewrite Hc, Ha. ring.
Qed.

Lemma ema_fold_preserves (C P : fl -> Prop) alpha s idxs seed :
  (forall c a, C c -> P a -> P (ema alpha c a)) ->
  Forall (fun i => C (Pandas.iloc s i)) idxs ->
  P seed -> P (ema_fold alpha s idxs seed).
Proof.
  intros Hstep. revert seed; induction idxs as [|i t IH]; intros seed Hc Hs.
  - exact Hs.
  - inversion Hc; subst. unfold ema_fold; cbn [fold_left].
    apply IH; [assumption|]. now apply Hstep.
Qed.

Lemma ema_trace_preserves (C P : fl -> Prop) alpha s idxs seed :
  (forall c a, C c -> P a -> P (ema alpha c a)) ->
  Forall (fun i => C (Pandas.iloc s i)) idxs ->
  P seed -> Forall P (seed :: ema_trace alpha s seed idxs).
Proof.
  intros Hstep. revert seed; induction idxs as [|i t IH]; intros seed Hc Hs.
  - now constructor.
  - inversion Hc; subst. constructor; [assumption|].
    cbn [ema_trace]. apply IH; [assumption|]. now apply Hstep.
Qed.

Lemma iloc_gain_of prices i :
  (1 <= i)%nat -> (i < length prices)%nat ->
  Pandas.iloc (gain_of prices) i
  = Fin (gain1 (nth i prices 0 - nth (i - 1) prices 0)).
Proof.
  intros H1 Hn. destruct prices as [|p t]; [simpl in Hn; lia|].
  rewrite gain_of_cons. destruct i as [|j]; [lia|].
  unfold Pandas.iloc. cbn [nth]. simpl in Hn.
  rewrite map_map.
  rewrite (nth_indep _ NaN (Fin (gain1 0)))
    by (rewrite length_map, deltas_from_length; lia).
  rewrite (map_nth (fun d => Fin (gain1 d))).
  rewrite nth_deltas_from by lia.
  replace (S j - 1)%nat with j by lia. reflexivity.
Qed.

Lemma iloc_loss_of prices i :
  (1 <= i)%nat -> (i < length prices)%nat ->
  Pandas.iloc (loss_of prices) i
  = Fin (loss1 (nth i prices 0 - nth (i - 1) prices 0)).
Proof.
  intros H1 Hn. destruct prices as [|p t]; [simpl in Hn; lia|].
  rewrite loss_of_cons. destruct i as [|j]; [lia|].
  unfold Pandas.iloc. cbn [nth]. simpl in Hn.
  rewrite map_map.
  rewrite (nth_indep _ NaN (Fin (loss1 0)))
    by (rewrite length_map, deltas_from_length; lia).
  rewrite (map_nth (fun d => Fin (loss1 d))).
  rewrite nth_deltas_from by lia.
  replace (S j - 1)%nat with j by lia. reflexivity.
Qed.

(** Every index the loop visits holds a finite, non-negative value. *)
Lemma loop_indices (C : fl -> Prop) (s : Pandas.series) period n :
  (forall i, (period <= i)%nat -> (i < n)%nat -> C (Pandas.iloc s i)) ->
  Forall (fun i => C (Pandas.iloc s i)) (seq period (n - period)).
Proof.
  intros H. apply Forall_forall. intros i Hi. apply in_seq in Hi.
  apply H; lia.
Qed.

Lemma gain_entries_nonneg prices period :
  (1 <= period)%nat ->
  Forall (fun i => nonneg (Pandas.iloc (gain_of prices) i))
         (seq period (length prices - period)).
Proof.
  intros Hp. apply loop_indices. intros i Hi Hn.
  rewrite iloc_gain_of by lia. apply gain1_nonneg.
Qed.

Lemma loss_entries_nonneg prices period :
  (1 <= period)%nat ->
  Forall (fun i => nonneg (Pandas.iloc (loss_of prices) i))
         (seq period (length prices - period)).
Proof.
  intros Hp. apply loop_indices. intros i Hi Hn.
  rewrite iloc_loss_of by lia. apply loss1_nonneg.
Qed.

Lemma Forall_firstn (A : Type) (P : A -> Prop) k l :
  Forall P l -> Forall P (firstn k l).
Proof.
  intros H. revert k; induction H as [|x t Hx Ht IH]; intros k.
  - rewrite firstn_nil. constructor.
  - destruct k as [|k]; simpl; constructor; auto.
Qed.

Lemma Forall_map_all (A B : Type) (f : A -> B) (P : B -> Prop) l :
  (forall a, P (f a)) -> Forall P (map f l).
Proof. intros H. induction l; simpl; constructor; auto. Qed.

Lemma seed_gain_nonneg prices period :
  (2 <= period)%nat -> (2 <= length prices)%nat ->
  nonneg (seed_gain prices period).
Proof.
  intros Hp Hn. rewrite seed_gain_mean by assumption. simpl.
  apply arithmetic_mean_nonneg, Forall_firstn, Forall_map_all, gain1_nonneg.
Qed.

Lemma seed_loss_nonneg prices period :
  (2 <= period)%nat -> (2 <= length prices)%nat ->
  nonneg (seed_loss prices period).
Proof.
  intros Hp Hn. rewrite seed_loss_mean by assumption. simpl.
  apply arithmetic_mean_nonneg, Forall_firstn, Forall_map_all, loss1_nonneg.
Qed.

Lemma rs_of_nonneg g l : nonneg g -> nonneg l -> nonneg (rs_of g l).
Proof.
  intros Hg Hl. destruct g as [| | |g], l as [| | |l]; simpl in *;
    try contradiction.
  unfold rs_of, fl_neb, fl_div.
  destruct (Qeq_bool l 0) eqn:E; simpl; [lra|].
  assert (~ l == 0) by (rewrite <- Qeq_bool_iff; congruence).
  apply Qle_shift_div_l; lra.
Qed.

Lemma rs_of_zero_loss g l : is_zero l -> rs_of g l = Fin 0.
Proof.
  intros Hl. destruct l as [| | |l]; simpl in Hl; try contradiction.
  unfold rs_of, fl_neb.
  apply Qeq_bool_iff in Hl. now rewrite Hl.
Qed.

Lemma rsi_of_rs_Fin r :
  0 <= r -> rsi_of_rs (Fin r) = Fin (100 - 100 / (1 + r)).
Proof.
  intros Hr. unfold rsi_of_rs, fl_add, fl_div, fl_sub.
  rewrite Qeq_bool_false_of_pos by lra. reflexivity.
Qed.

Lemma rsi_range r :
  0 <= r -> 0 <= 100 - 100 / (1 + r) /\ 100 - 100 / (1 + r) < 100.
Proof.
  intros Hr.
  assert (H1 : 100 / (1 + r) <= 100) by (apply Qle_shift_div_r; lra).
  assert (H2 : 0 < 100 / (1 + r)) by (apply Qlt_shift_div_l; lra).
  lra.
Qed.

Lemma rsi_of_rs_range x :
  nonneg x -> exists q, rsi_of_rs x = Fin q /\ 0 <= q /\ q < 100.
Proof.
  intros Hx. destruct x as [| | |r]; simpl in Hx; try contradiction.
  exists (100 - 100 / (1 + r)). split; [now apply rsi_of_rs_Fin|].
  now apply rsi_range.
Qed.

(** With a seed window that holds at least one difference, both averages
    the fold ends with are finite and non-negative. *)
Lemma final_gain_nonneg prices period :
  (2 <= period)%nat -> (2 <= length prices)%nat ->
  nonneg (ema_fold (Fin (alpha_of period)) (gain_of prices)
            (seq period (length prices - period)) (seed_gain prices period)).
Proof.
  intros Hp Hn. destruct (alpha_of_bounds period) as [A0 A1]; [lia|].
  apply ema_fold_preserves with (C := nonneg).
  - intros c a. apply ema_nonneg; lra.
  - apply gain_entries_nonneg; lia.
  - now apply seed_gain_nonneg.
Qed.

Lemma final_loss_nonneg prices period :
  (2 <= period)%nat -> (2 <= length prices)%nat ->
  nonneg (ema_fold (Fin (alpha_of period)) (loss_of prices)
            (seq period (length prices - period)) (seed_loss prices period)).
Proof.
  intros Hp Hn. destruct (alpha_of_bounds period) as [A0 A1]; [lia|].
  apply ema_fold_preserves with (C := nonneg).
  - intros c a. apply ema_nonneg; lra.
  - apply loss_entries_nonneg; lia.
  - now apply seed_loss_nonneg.
Qed.

Lemma calculate_precise_rsi_range prices period :
  (2 <= period)%nat -> (2 <= length prices)%nat ->
  exists q, calculate_precise_rsi prices period = Ok (Fin q)
            /\ 0 <= q /\ q < 100.
Proof.
  intros Hp Hn. rewrite calculate_precise_rsi_fold by lia.
  destruct (rsi_of_rs_range _
              (rs_of_nonneg _ _ (final_gain_nonneg prices period Hp Hn)
                            (final_loss_nonneg prices period Hp Hn)))
    as (q & Hq & Hr).
  exists q. now rewrite Hq.
Qed.

End Invariants.

(** ** Zero losses, and the fold over the tail of the series *)

Section Tail.

Lemma loss1_zero d : 0 <= d -> loss1 d == 0.
Proof.
  intros Hd. unfold loss1. destruct (Qle_bool d 0) eqn:E; simpl; [|lra].
  apply Qle_bool_iff in E. lra.
Qed.

Lemma no_decrease_deltas prices :
  no_decrease_from 1 prices ->
  Forall (fun d => 0 <= d) (successive_differences prices).
Proof.
  intros H. destruct prices as [|p t]; [constructor|].
  apply Forall_forall. intros d Hd.
  destruct (In_nth _ _ 0 Hd) as (j & Hj & <-).
  cbn [successive_differences] in Hj |- *.
  rewrite deltas_from_length in Hj. rewrite nth_deltas_from by assumption.
  specialize (H (S j)). cbn [length] in H.
  replace (S j - 1)%nat with j in H by lia.
  cbn [nth] in H. assert (nth j (p :: t) 0 <= nth j t 0) by (apply H; lia).
  lra.
Qed.

Lemma seed_loss_zero prices period :
  (2 <= period)%nat -> (2 <= length prices)%nat ->
  no_decrease_from 1 prices -> is_zero (seed_loss prices period).
Proof.
  intros Hp Hn H. rewrite seed_loss_mean by assumption. simpl.
  apply arithmetic_mean_zero, Forall_firstn.
  apply no_decrease_deltas in H.
  induction H as [|d ds Hd Hds IH]; simpl; constructor; auto using loss1_zero.
Qed.

Lemma loss_entries_zero prices period :
  (1 <= period)%nat -> no_decrease_from period prices ->
  Forall (fun i => is_zero (Pandas.iloc (loss_of prices) i))
         (seq period (length prices - period)).
Proof.
  intros Hp H. apply loop_indices. intros i Hi Hn.
  rewrite iloc_loss_of by lia. simpl. apply loss1_zero.
  specialize (H i Hi Hn). lra.
Qed.

Lemma no_decrease_from_weaken k k' prices :
  (k <= k')%nat -> no_decrease_from k prices -> no_decrease_from k' prices.
Proof. intros Hk H i Hi Hn. apply H; lia. Qed.

Lemma final_loss_zero prices period :
  (2 <= period)%nat -> (2 <= length prices)%nat ->
  no_decrease_from 1 prices ->
  is_zero (ema_fold (Fin (alpha_of period)) (loss_of prices)
             (seq period (length prices - period)) (seed_loss prices period)).
Proof.
  intros Hp Hn H.
  apply ema_fold_preserves with (C := is_zero).
  - intros c a. apply ema_zero.
  - apply loss_entries_zero; [lia|].
    apply no_decrease_from_weaken with (k := 1%nat); [lia | assumption].
  - now apply seed_loss_zero.
Qed.

Lemma map_iloc_seq (s : Pandas.series) k :
  map (Pandas.iloc s) (seq k (length s - k)) = skipn k s.
Proof.
  apply nth_ext with (d := Pandas.iloc s 0) (d' := NaN).
  - now rewrite length_map, length_seq, length_skipn.
  - intros n Hn. rewrite length_map, length_seq in Hn.
    rewrite (map_nth (Pandas.iloc s)), seq_nth by assumption.
    now rewrite nth_skipn.
Qed.

Lemma ema_fold_map alpha s idxs seed :
  ema_fold alpha s idxs seed
  = fold_left (fun a g => ema alpha g a) (map (Pandas.iloc s) idxs) seed.
Proof.
  unfold ema_fold. revert seed; induction idxs as [|i t IH]; intros seed;
    simpl; [reflexivity | apply IH].
Qed.

Lemma ema_fold_skipn alpha (s : Pandas.series) period seed :
  ema_fold alpha s (seq period (length s - period)) seed
  = fold_left (fun a g => ema alpha g a) (skipn period s) seed.
Proof. now rewrite ema_fold_map, map_iloc_seq. Qed.

Lemma wilder_step_ema period c a :
  (1 <= period)%nat ->
  c * alpha_of period + a * (1 - alpha_of period) == wilder_step period c a.
Proof.
  intros Hp. unfold alpha_of, wilder_step.
  assert (0 < inject_Z (Z.of_nat period)) by (apply inject_nat_pos; lia).
  field. lra.
Qed.

Lemma arithmetic_mean_ext l l' :
  Forall2 Qeq l l' -> arithmetic_mean l == arithmetic_mean l'.
Proof.
  intros H. unfold arithmetic_mean, Qsum.
  assert (Hlen : length l = length l') by (eapply Forall2_length; eauto).
  rewrite Hlen.
  assert (Hs : forall a a', a == a' ->
                 fold_left Qplus l a == fold_left Qplus l' a').
  { clear Hlen. induction H as [|x y l l' Hxy Hl IH]; intros a a' Ha;
      simpl; [assumption|]. apply IH. now rewrite Ha, Hxy. }
  rewrite (Hs 0 0) by reflexivity. reflexivity.
Qed.

Lemma Forall2_firstn (A B : Type) (R : A -> B -> Prop) k l l' :
  Forall2 R l l' -> Forall2 R (firstn k l) (firstn k l').
Proof.
  intros H. revert k; induction H as [|x y l l' Hxy Hl IH]; intros k.
  - rewrite !firstn_nil. constructor.
  - destruct k as [|k]; simpl; constructor; auto.
Qed.

Lemma Forall2_map_both (A B : Type) (R : B -> B -> Prop) (f g : A -> B) l :
  (forall a, R (f a) (g a)) -> Forall2 R (map f l) (map g l).
Proof. intros H. induction l; simpl; constructor; auto. Qed.

End Tail.

(** ** The lists [gains] and [losses] entry by entry *)

Section Trace.

Lemma nonneg_Fin x : nonneg x -> exists q, x = Fin q /\ 0 <= q.
Proof.
  destruct x as [| | |q]; simpl; try contradiction. intros H. now exists q.
Qed.

Lemma Forall_nth_in (A : Type) (P : A -> Prop) l k d :
  Forall P l -> (k < length l)%nat -> P (nth k l d).
Proof.
  intros H. revert k; induction H as [|x t Hx Ht IH]; intros k Hk;
    simpl in Hk; [lia|].
  destruct k as [|k]; simpl; [assumption | apply IH; lia].
Qed.

Lemma trace_step_Fin alpha s seed idxs k :
  0 <= alpha -> alpha <= 1 ->
  Forall (fun i => nonneg (Pandas.iloc s i)) idxs -> nonneg seed ->
  (k < length idxs)%nat ->
  exists g a,
    Pandas.iloc s (nth k idxs O) = Fin g
    /\ nth k (seed :: ema_trace (Fin alpha) s seed idxs) NaN = Fin a
    /\ nth (S k) (seed :: ema_trace (Fin alpha) s seed idxs) NaN
       = Fin (g * alpha + a * (1 - alpha)).
Proof.
  intros A0 A1 Hc Hs Hk.
  assert (Hall : Forall nonneg (seed :: ema_trace (Fin alpha) s seed idxs)).
  { apply ema_trace_preserves with (C := nonneg); try assumption.
    intros c a. now apply ema_nonneg. }
  destruct (nonneg_Fin _ (Forall_nth_in _ (fun i => nonneg (Pandas.iloc s i))
                            idxs k O Hc Hk)) as (g & Hg & _).
  destruct (nonneg_Fin (nth k (seed :: ema_trace (Fin alpha) s seed idxs) NaN))
    as (a & Ha & _).
  { apply Forall_nth_in; [assumption|]. simpl. rewrite ema_trace_length. lia. }
  exists g, a. split; [assumption|]. split; [assumption|].
  rewrite nth_cons_trace by assumption. now rewrite Hg, Ha.
Qed.

Lemma smoothed_lengths alpha prices period gains losses :
  smoothed alpha prices period = (gains, losses) ->
  length gains = S (length prices - period)
  /\ length losses = S (length prices - period).
Proof.
  rewrite smoothed_trace. intros E. injection E as <- <-.
  simpl. now rewrite !ema_trace_length, length_seq.
Qed.

Lemma calculate_precise_rsi_smoothed prices period gains losses :
  (1 <= period)%nat ->
  smoothed (Fin (alpha_of period)) prices period = (gains, losses) ->
  calculate_precise_rsi prices period
  = Ok (last (map rsi_of_rs (Pandas.divide_where_nonzero gains losses)) NaN).
Proof.
  intros Hp E. unfold calculate_precise_rsi, py_inv.
  destruct period as [|k]; [lia|].
  fold (alpha_of (S k)). now rewrite E.
Qed.

Lemma nth_divide_where_nonzero a b k :
  length a = length b -> (k < length b)%nat ->
  nth k (Pandas.divide_where_nonzero a b) NaN = rs_of (nth k a NaN) (nth k b NaN).
Proof.
  intros Hlen Hk. unfold Pandas.divide_where_nonzero.
  set (f := fun ab : fl * fl => _).
  rewrite (nth_indep _ NaN (f (NaN, NaN)))
    by (rewrite length_map, length_combine; lia).
  rewrite (map_nth f), combine_nth by assumption. reflexivity.
Qed.

End Trace.

(** ** Properties of the indicator *)

Section IndicatorProperties.

(** C1, as stated, fails: on the closes 1, 2, ..., 16 (no decrease
    anywhere, so none after the seed window) with the period 14, the
    indicator is 0 and not 100. *)
Lemma zero_loss_is_not_100 :
  no_decrease_from RSI_PERIOD (rising 16) /\
  exists q, calculate_precise_rsi (rising 16) RSI_PERIOD = Ok (Fin q)
            /\ q == 0 /\ ~ q == 100.
Proof.
  split.
  - intros i H1 H2. unfold RSI_PERIOD in H1. simpl in H2.
    assert (E : (i = 14 \/ i = 15)%nat) by lia.
    destruct E as [-> | ->]; vm_compute; discriminate.
  - eexists. split; [vm_compute; reflexivity|].
    split; [vm_compute; reflexivity | vm_compute; discriminate].
Qed.

(** C1 (amended): for a series longer than the period (period at least 2)
    with no decrease after the seed window, [calculate_precise_rsi] raises
    nothing; when the seed window has no decrease either, the average
    loss is 0, [rs] is 0 and the value returned is exactly 0, not 100.
    What is returned when the seed window has a decrease is left open. *)
Theorem zero_loss_edge_case prices period :
  (2 <= period)%nat -> (period < length prices)%nat ->
  no_decrease_from period prices ->
  exists v, calculate_precise_rsi prices period = Ok v
            /\ (no_decrease_in_seed period prices ->
                exists q, v = Fin q /\ q == 0).
Proof.
  intros Hp Hn Htail. rewrite calculate_precise_rsi_fold by lia.
  eexists. split; [reflexivity|]. intros Hseed.
  assert (Hall : no_decrease_from 1 prices).
  { intros i Hi Hlen. destruct (Nat.lt_ge_cases i period) as [Hlt | Hge].
    - now apply Hseed.
    - now apply Htail. }
  rewrite rs_of_zero_loss by (apply final_loss_zero; [lia | lia | assumption]).
  rewrite rsi_of_rs_Fin by lra.
  eexists. split; reflexivity.
Qed.

Lemma zero_loss_edge_case_witness :
  exists v, calculate_precise_rsi (rising 16) RSI_PERIOD = Ok v
            /\ (no_decrease_in_seed RSI_PERIOD (rising 16) ->
                exists q, v = Fin q /\ q == 0).
Proof.
  apply (zero_loss_edge_case (rising 16) RSI_PERIOD).
  - unfold RSI_PERIOD; lia.
  - unfold RSI_PERIOD; simpl; lia.
  - intros i H1 H2. unfold RSI_PERIOD in H1. simpl in H2.
    assert (E : (i = 14 \/ i = 15)%nat) by lia.
    destruct E as [-> | ->]; vm_compute; discriminate.
Defined.

(** C2, as stated, fails: on fourteen closes 0 followed by a close 14, with
    the period 14, the gain series has the length of the input (15, not
    14), and the seed is the mean of the first 13 differences, 0, while the
    mean of the first 14 differences is 1. *)
Lemma seed_window_is_one_short :
  let prices := repeat 0 14 ++ [14] in
  length (gain_of prices) = length prices
  /\ length (spec_gain prices) = (length prices - 1)%nat
  /\ fl_equiv (seed_gain prices RSI_PERIOD) (Fin 0)
  /\ spec_seed_gain prices RSI_PERIOD == 1
  /\ ~ fl_equiv (seed_gain prices RSI_PERIOD)
               (Fin (spec_seed_gain prices RSI_PERIOD)).
Proof.
  cbv zeta. repeat split; try (vm_compute; reflexivity).
  vm_compute. discriminate.
Qed.

(** C2 (amended): for a series of at least [period] closes (period at
    least 2), the gain and loss series have the length of the input; their
    first entry is NaN and entry [i >= 1] is the positive part, resp. the
    absolute negative part, of [prices[i] - prices[i-1]]; avgGain and
    avgLoss are seeded with the mean of the entries of the first [period]
    that are not NaN, which is the arithmetic mean of the gains, resp.
    losses, of the first [period - 1] successive differences. *)
Theorem seeding_of_accumulators prices period :
  (2 <= period)%nat -> (period <= length prices)%nat ->
  length (gain_of prices) = length prices
  /\ length (loss_of prices) = length prices
  /\ length (successive_differences prices) = (length prices - 1)%nat
  /\ Pandas.iloc (gain_of prices) 0 = NaN
  /\ Pandas.iloc (loss_of prices) 0 = NaN
  /\ (forall i, (1 <= i)%nat -> (i < length prices)%nat ->
        exists g l,
          Pandas.iloc (gain_of prices) i = Fin g
          /\ g == Qmax (nth i prices 0 - nth (i - 1) prices 0) 0
          /\ Pandas.iloc (loss_of prices) i = Fin l
          /\ l == Qabs (Qmin (nth i prices 0 - nth (i - 1) prices 0) 0))
  /\ fl_equiv (seed_gain prices period)
              (Fin (arithmetic_mean (firstn (period - 1) (spec_gain prices))))
  /\ fl_equiv (seed_loss prices period)
              (Fin (arithmetic_mean (firstn (period - 1) (spec_loss prices)))).
Proof.
  intros Hp Hn.
  split; [apply gain_of_length|].
  split; [apply loss_of_length|].
  split; [apply successive_differences_length|].
  destruct prices as [|p t] eqn:E; [simpl in Hn; lia|]. rewrite <- E in *.
  split; [subst prices; now rewrite gain_of_cons|].
  split; [subst prices; now rewrite loss_of_cons|].
  split.
  - intros i H1 Hi. eexists; eexists.
    split; [now apply iloc_gain_of|]. split; [apply gain1_max|].
    split; [now apply iloc_loss_of|]. apply loss1_abs_min.
  - split.
    + rewrite seed_gain_mean by lia. simpl.
      apply arithmetic_mean_ext, Forall2_firstn, Forall2_map_both, gain1_max.
    + rewrite seed_loss_mean by lia. simpl.
      apply arithmetic_mean_ext, Forall2_firstn, Forall2_map_both,
        loss1_abs_min.
Qed.

Lemma seeding_of_accumulators_witness :
  fl_equiv (seed_gain [3; 1; 2; 3; 4] 3)
           (Fin (arithmetic_mean (firstn (3 - 1) (spec_gain [3; 1; 2; 3; 4]))))
  /\ fl_equiv (seed_loss [3; 1; 2; 3; 4] 3)
              (Fin (arithmetic_mean
                      (firstn (3 - 1) (spec_loss [3; 1; 2; 3; 4])))).
Proof.
  apply (seeding_of_accumulators [3; 1; 2; 3; 4] 3); simpl; lia.
Defined.

(** C3: for a series longer than the period (period at least 2), the
    loop appends one average per index [i] from [period] to the end of the
    gain and loss series, each being [gain[i]/period +
    previous*(period-1)/period] (likewise for the losses), with
    [alpha = 1/period]; the last averages are one left fold over the
    entries from [period] on, started at the seed, and the value returned
    is computed from these lists. *)
Theorem smoothing_recurrence prices period :
  (2 <= period)%nat -> (period < length prices)%nat ->
  exists gains losses,
    smoothed (Fin (alpha_of period)) prices period = (gains, losses)
    /\ calculate_precise_rsi prices period
       = Ok (last (map rsi_of_rs (Pandas.divide_where_nonzero gains losses))
                  NaN)
    /\ length gains = S (length prices - period)
    /\ length losses = S (length prices - period)
    /\ (forall i, (period <= i)%nat -> (i < length (gain_of prices))%nat ->
          exists g a a',
            Pandas.iloc (gain_of prices) i = Fin g
            /\ nth (i - period) gains NaN = Fin a
            /\ nth (S (i - period)) gains NaN = Fin a'
            /\ a' == wilder_step period g a)
    /\ (forall i, (period <= i)%nat -> (i < length (loss_of prices))%nat ->
          exists l a a',
            Pandas.iloc (loss_of prices) i = Fin l
            /\ nth (i - period) losses NaN = Fin a
            /\ nth (S (i - period)) losses NaN = Fin a'
            /\ a' == wilder_step period l a)
    /\ last gains NaN
       = fold_left (fun a g => ema (Fin (alpha_of period)) g a)
                   (skipn period (gain_of prices)) (seed_gain prices period)
    /\ last losses NaN
       = fold_left (fun a l => ema (Fin (alpha_of period)) l a)
                   (skipn period (loss_of prices)) (seed_loss prices period).
Proof.
  intros Hp Hn.
  destruct (smoothed (Fin (alpha_of period)) prices period)
    as [gains losses] eqn:E.
  exists gains, losses. split; [reflexivity|].
  split; [apply calculate_precise_rsi_smoothed; [lia | assumption]|].
  destruct (smoothed_lengths _ _ _ _ _ E) as [Lg Ll].
  split; [assumption|]. split; [assumption|].
  rewrite smoothed_trace in E. injection E as <- <-.
  destruct (alpha_of_bounds period) as [A0 A1]; [lia|].
  split; [|split; [|split]].
  - intros i Hi Hlen. rewrite gain_of_length in Hlen.
    destruct (trace_step_Fin (alpha_of period) (gain_of prices)
                (seed_gain prices period)
                (seq period (length prices - period)) (i - period))
      as (g & a & Hg & Ha & Ha'); try lra.
    + apply gain_entries_nonneg; lia.
    + apply seed_gain_nonneg; lia.
    + rewrite length_seq; lia.
    + rewrite seq_nth in Hg by lia.
      replace (period + (i - period))%nat with i in Hg by lia.
      exists g, a, (g * alpha_of period + a * (1 - alpha_of period)).
      repeat split; try assumption. apply wilder_step_ema; lia.
  - intros i Hi Hlen. rewrite loss_of_length in Hlen.
    destruct (trace_step_Fin (alpha_of period) (loss_of prices)
                (seed_loss prices period)
                (seq period (length prices - period)) (i - period))
      as (l & a & Hl & Ha & Ha'); try lra.
    + apply loss_entries_nonneg; lia.
    + apply seed_loss_nonneg; lia.
    + rewrite length_seq; lia.
    + rewrite seq_nth in Hl by lia.
      replace (period + (i - period))%nat with i in Hl by lia.
      exists l, a, (l * alpha_of period + a * (1 - alpha_of period)).
      repeat split; try assumption. apply wilder_step_ema; lia.
  - rewrite last_cons_trace, <- (gain_of_length prices) at 1.
    apply ema_fold_skipn.
  - rewrite last_cons_trace, <- (loss_of_length prices) at 1.
    apply ema_fold_skipn.
Qed.

Lemma smoothing_recurrence_witness :
  exists gains losses,
    smoothed (Fin (alpha_of 3)) [3; 1; 2; 3; 4] 3 = (gains, losses)
    /\ calculate_precise_rsi [3; 1; 2; 3; 4] 3
       = Ok (last (map rsi_of_rs (Pandas.divide_where_nonzero gains losses))
                  NaN)
    /\ length gains = S (length [3; 1; 2; 3; 4] - 3)
    /\ length losses = S (length [3; 1; 2; 3; 4] - 3).
Proof.
  destruct (smoothing_recurrence [3; 1; 2; 3; 4] 3) as (gs & ls & H);
    [lia | simpl; lia |].
  exists gs, ls. destruct H as (H1 & H2 & H3 & H4 & _).
  repeat split; assumption.
Defined.

(** C5: in the array [rs], every entry whose average loss is 0 is 0,
    whatever the average gain, the division being left out there; and when
    the last average loss is 0 the indicator returned is the finite number
    [100 - 100/(1+0)], that is 0: nothing is raised and no NaN or infinity
    comes out. *)
Theorem division_by_zero_guard prices period gains losses :
  (1 <= period)%nat ->
  smoothed (Fin (alpha_of period)) prices period = (gains, losses) ->
  (forall k, (k < length losses)%nat -> is_zero (nth k losses NaN) ->
     nth k (Pandas.divide_where_nonzero gains losses) NaN = Fin 0)
  /\ (is_zero (last losses NaN) ->
      exists q, calculate_precise_rsi prices period = Ok (Fin q)
                /\ q = 100 - 100 / (1 + 0) /\ q == 0).
Proof.
  intros Hp E. split.
  - intros k Hk Hz.
    destruct (smoothed_lengths _ _ _ _ _ E) as [Lg Ll].
    rewrite nth_divide_where_nonzero by lia.
    now apply rs_of_zero_loss.
  - intros Hz. exists (100 - 100 / (1 + 0)).
    split; [|split; reflexivity].
    rewrite calculate_precise_rsi_fold by assumption.
    rewrite smoothed_trace in E. injection E as <- <-.
    rewrite last_cons_trace in Hz.
    rewrite rs_of_zero_loss by assumption.
    apply f_equal, rsi_of_rs_Fin. lra.
Qed.

Lemma division_by_zero_guard_witness :
  exists q, calculate_precise_rsi (rising 16) RSI_PERIOD = Ok (Fin q)
            /\ q = 100 - 100 / (1 + 0) /\ q == 0.
Proof.
  assert (Hp : (1 <= RSI_PERIOD)%nat) by (unfold RSI_PERIOD; lia).
  destruct (smoothed (Fin (alpha_of RSI_PERIOD)) (rising 16) RSI_PERIOD)
    as [gains losses] eqn:E.
  apply (proj2 (division_by_zero_guard (rising 16) RSI_PERIOD gains losses
                  Hp E)).
  vm_compute in E. injection E as <- <-. vm_compute. reflexivity.
Defined.




End IndicatorProperties.

(** ** Properties of [strip], [upper] and [readlines] *)

Section TextProperties.

Local Open Scope string_scope.

Lemma all_space_lstrip s : all_space (lstrip s) = all_space s.
Proof.
  induction s as [|c t IH]; simpl; [reflexivity|].
  destruct (is_space c) eqn:E; simpl; [assumption | now rewrite E].
Qed.

Lemma lstrip_empty_iff s : lstrip s = "" <-> all_space s = true.
Proof.
  induction s as [|c t IH]; simpl; [tauto|].
  destruct (is_space c); simpl; [assumption|]. split; discriminate.
Qed.

Lemma rstrip_empty_iff s : rstrip s = "" <-> all_space s = true.
Proof.
  induction s as [|c t IH]; simpl; [tauto|].
  destruct (rstrip t) as [|c' r] eqn:E.
  - destruct (is_space c); simpl.
    + split; intros _; [now apply IH | reflexivity].
    + split; discriminate.
  - split; [discriminate|]. intros H. apply andb_true_iff in H.
    destruct H as [_ H]. apply IH in H. discriminate.
Qed.

Lemma strip_empty_iff s : strip s = "" <-> all_space s = true.
Proof.
  unfold strip. rewrite rstrip_empty_iff, all_space_lstrip. reflexivity.
Qed.

Lemma truthy_upper s : truthy (upper s) = truthy s.
Proof. now destruct s. Qed.

Lemma truthy_false_iff s : truthy s = false <-> s = "".
Proof. destruct s; simpl; split; congruence. Qed.




Lemma rstrip_idempotent s : rstrip (rstrip s) = rstrip s.
Proof.
  induction s as [|c t IH]; simpl; [reflexivity|].
  destruct (rstrip t) as [|c' r] eqn:E.
  - destruct (is_space c) eqn:Ec; simpl; [reflexivity | now rewrite Ec].
  - change (rstrip (String c (String c' r)))
      with (match rstrip (String c' r) with
            | "" => if is_space c then "" else String c ""
            | r' => String c r'
            end).
    now rewrite IH.
Qed.

Lemma lstrip_head_not_space s c t :
  lstrip s = String c t -> is_space c = false.
Proof.
  induction s as [|c0 t0 IH]; simpl; [discriminate|].
  destruct (is_space c0) eqn:E; [assumption|].
  intros H. injection H as <- _. exact E.
Qed.

Lemma rstrip_head c t :
  is_space c = false -> exists r, rstrip (String c t) = String c r.
Proof.
  intros E. simpl. destruct (rstrip t) as [|c' r].
  - rewrite E. now exists "".
  - now exists (String c' r).
Qed.

(** Nothing is left to strip at either end. *)
Lemma strip_trimmed s :
  lstrip (strip s) = strip s /\ rstrip (strip s) = strip s.
Proof.
  unfold strip. split; [|apply rstrip_idempotent].
  destruct (lstrip s) as [|c t] eqn:E; [reflexivity|].
  pose proof (lstrip_head_not_space _ _ _ E) as Hc.
  destruct (rstrip_head c t Hc) as (r & ->). simpl. now rewrite Hc.
Qed.








Lemma not_space_not_newline c :
  is_space c = false ->
  Ascii.eqb c "013"%char = false /\ Ascii.eqb c "010"%char = false.
Proof.
  destruct c as [[] [] [] [] [] [] [] []]; vm_compute; intros H;
    (discriminate || (split; reflexivity)).
Qed.

Lemma universal_newlines_line p rest :
  no_space p = true ->
  universal_newlines (p ++ newline ++ rest)
  = p ++ newline ++ universal_newlines rest.
Proof.
  induction p as [|c t IH]; intros H; [reflexivity|].
  simpl in H. apply andb_true_iff in H. destruct H as [Hc Ht].
  apply negb_true_iff in Hc.
  destruct (not_space_not_newline c Hc) as [Hcr _].
  cbn [append universal_newlines]. rewrite Hcr. f_equal. now apply IH.
Qed.

Lemma split_keepends_line p rest :
  no_space p = true ->
  split_keepends (p ++ newline ++ rest) = (p ++ newline) :: split_keepends rest.
Proof.
  induction p as [|c t IH]; intros H; [reflexivity|].
  simpl in H. apply andb_true_iff in H. destruct H as [Hc Ht].
  apply negb_true_iff in Hc.
  destruct (not_space_not_newline c Hc) as [_ Hlf].
  cbn [append split_keepends]. rewrite Hlf, IH by assumption. reflexivity.
Qed.

Lemma rstrip_no_space p : no_space p = true -> rstrip p = p.
Proof.
  induction p as [|c t IH]; intros H; [reflexivity|].
  simpl in H. apply andb_true_iff in H. destruct H as [Hc Ht].
  apply negb_true_iff in Hc. simpl. rewrite IH by assumption.
  destruct t; [now rewrite Hc | reflexivity].
Qed.

Lemma rstrip_app_space p q : all_space q = true -> rstrip (p ++ q) = rstrip p.
Proof.
  intros Hq. induction p as [|c t IH]; simpl.
  - now apply rstrip_empty_iff.
  - now rewrite IH.
Qed.

Lemma strip_line p : no_space p = true -> strip (p ++ newline) = p.
Proof.
  intros H. unfold strip. destruct p as [|c t]; [reflexivity|].
  pose proof H as H'. simpl in H'. apply andb_true_iff in H'.
  destruct H' as [Hc _]. apply negb_true_iff in Hc.
  cbn [append lstrip]. rewrite Hc.
  change (String c (t ++ newline)) with (String c t ++ newline).
  rewrite rstrip_app_space by reflexivity. now apply rstrip_no_space.
Qed.

Lemma append_assoc (a b c : string) : (a ++ b) ++ c = a ++ (b ++ c).
Proof. induction a as [|x t IH]; simpl; [reflexivity | now rewrite IH]. Qed.

(** Reading back what the loop of writes left gives the symbols written,
    when no symbol holds white space. *)
Lemma readlines_written pairs :
  forallb no_space pairs = true ->
  map strip (readlines (written pairs)) = pairs.
Proof.
  unfold readlines. induction pairs as [|p rest IH]; intros H; [reflexivity|].
  simpl in H. apply andb_true_iff in H. destruct H as [Hp Hrest].
  cbn [written]. rewrite append_assoc.
  rewrite universal_newlines_line, split_keepends_line by assumption.
  cbn [map]. rewrite strip_line, IH by assumption. reflexivity.
Qed.

End TextProperties.

(** ** Properties of the scanner *)

Section ScannerProperties.

Local Open Scope string_scope.
Local Open Scope list_scope.

Lemma after_print st l :
  {| coins_file := coins_file st; console := console st ++ [l];
     sent := sent st |} = after st [l] [].
Proof. unfold after. now rewrite app_nil_r. Qed.

Lemma after_request st r :
  {| coins_file := coins_file st; console := console st;
     sent := sent st ++ [r] |} = after st [] [r].
Proof. unfold after. now rewrite app_nil_r. Qed.

Lemma after_after st ls rs ls' rs' :
  after (after st ls rs) ls' rs' = after st (ls ++ ls') (rs ++ rs').
Proof. unfold after; simpl. now rewrite <- !app_assoc. Qed.

Lemma print_flush_after l st : print_flush l st = (Ok tt, after st [l] []).
Proof. unfold print_flush. now rewrite after_print. Qed.

Lemma requests_get_after (A : Type) r (answer : reply A) st :
  requests_get r answer st
  = (match answer with
     | NoConnection => Raise ConnectionError
     | Response code body => Ok (code, body)
     end, after st [] [r]).
Proof. unfold requests_get. rewrite after_request. now destruct answer. Qed.

Lemma enough_data_test (data : list Q) :
  (match data with [] => true | _ => false end
   || (length data <? RSI_PERIOD)%nat)
  = (length data <? RSI_PERIOD)%nat.
Proof. now destruct data. Qed.

(** What [fetch_and_calculate_rsi] does on an answer with status 200. *)
Lemma fetch_and_calculate_rsi_200 w sym data st :
  klines w sym = Response 200 data ->
  fetch_and_calculate_rsi w sym st
  = if (length data <? RSI_PERIOD)%nat
    then (Ok None, after st [NotEnoughData sym] [GetKlines sym])
    else match calculate_precise_rsi data RSI_PERIOD with
         | Ok v => (Ok (Some v), after st [] [GetKlines sym])
         | Raise e => (Raise e, after st [] [GetKlines sym])
         end.
Proof.
  intros H. unfold fetch_and_calculate_rsi, bind.
  rewrite requests_get_after, H. cbn [Nat.eqb]. rewrite enough_data_test.
  destruct (length data <? RSI_PERIOD)%nat.
  - rewrite print_flush_after, after_after. reflexivity.
  - unfold from_py. now destruct (calculate_precise_rsi data RSI_PERIOD).
Qed.

(** C4, as stated, fails: with exactly [RSI_PERIOD] = 14 closes
    (1, 2, ..., 14) the series is not refused; an indicator value comes
    back. *)
Lemma period_many_closes_are_enough :
  (length (rising 14) <= RSI_PERIOD)%nat
  /\ exists q,
       fetch_and_calculate_rsi
         (uniform_world None NoConnection (Response 200 (rising 14))
            NoConnection)
         "BTCUSDT" fresh
       = (Ok (Some (Fin q)), after fresh [] [GetKlines "BTCUSDT"]).
Proof.
  split; [simpl; unfold RSI_PERIOD; lia|].
  eexists. vm_compute. reflexivity.
Qed.

(** C4 (amended): on a successful kline answer the series is refused as
    not enough data (nothing is computed, the symbol gets the diagnostic
    line and no match line) exactly when it has fewer than [RSI_PERIOD]
    closes; with [RSI_PERIOD] closes or more the indicator is computed
    and its value is what comes back. *)
Theorem insufficient_data_condition w sym data st :
  klines w sym = Response 200 data ->
  ((length data < RSI_PERIOD)%nat ->
     fetch_and_calculate_rsi w sym st
     = (Ok None, after st [NotEnoughData sym] [GetKlines sym])
     /\ process_symbol w sym st
        = (Ok tt, after st [NotEnoughData sym] [GetKlines sym]))
  /\ ((RSI_PERIOD <= length data)%nat ->
      exists v,
        calculate_precise_rsi data RSI_PERIOD = Ok v
        /\ fetch_and_calculate_rsi w sym st
           = (Ok (Some v), after st [] [GetKlines sym])).
Proof.
  intros H. pose proof (fetch_and_calculate_rsi_200 w sym data st H) as F.
  split; intros Hlen.
  - apply Nat.ltb_lt in Hlen. rewrite Hlen in F. split; [exact F|].
    unfold process_symbol, try_except, bind. now rewrite F.
  - assert (E : (length data <? RSI_PERIOD)%nat = false)
      by (apply Nat.ltb_ge; exact Hlen).
    rewrite E in F.
    destruct (calculate_precise_rsi data RSI_PERIOD) as [v|e] eqn:Hv.
    + exists v. split; [reflexivity | exact F].
    + unfold calculate_precise_rsi, RSI_PERIOD, py_inv in Hv.
      destruct (smoothed _ data 14); discriminate.
Qed.

Lemma insufficient_data_condition_witness :
  (fetch_and_calculate_rsi
     (uniform_world None NoConnection (Response 200 (rising 13)) NoConnection)
     "BTCUSDT" fresh
   = (Ok None, after fresh [NotEnoughData "BTCUSDT"] [GetKlines "BTCUSDT"])
   /\ process_symbol
        (uniform_world None NoConnection (Response 200 (rising 13))
           NoConnection)
        "BTCUSDT" fresh
      = (Ok tt, after fresh [NotEnoughData "BTCUSDT"] [GetKlines "BTCUSDT"]))
  /\ exists v,
       calculate_precise_rsi (falling 14) RSI_PERIOD = Ok v
       /\ fetch_and_calculate_rsi
            (uniform_world None NoConnection (Response 200 (falling 14))
               NoConnection)
            "BTCUSDT" fresh
          = (Ok (Some v), after fresh [] [GetKlines "BTCUSDT"]).
Proof.
  split.
  - apply (proj1 (insufficient_data_condition
                    (uniform_world None NoConnection (Response 200 (rising 13))
                       NoConnection)
                    "BTCUSDT" (rising 13) fresh eq_refl)).
    simpl; unfold RSI_PERIOD; lia.
  - apply (proj2 (insufficient_data_condition
                    (uniform_world None NoConnection
                       (Response 200 (falling 14)) NoConnection)
                    "BTCUSDT" (falling 14) fresh eq_refl)).
    simpl; unfold RSI_PERIOD; lia.
Defined.

(** C7, the part that holds: with no cache file and an answer of the
    listing endpoint whose status is not 200, [get_usdt_pairs] writes the
    diagnostic line, returns the empty list and raises nothing. *)
Lemma listing_bad_status_is_contained w st code body :
  coins_file st = None ->
  exchange_info w = Response code body -> code <> 200%nat ->
  get_usdt_pairs w st
  = (Ok [], after st [FetchingPairs; FailedPairs] [GetExchangeInfo]).
Proof.
  intros Hc Hr Hcode. unfold get_usdt_pairs, bind, read_coins_file.
  rewrite Hc, print_flush_after, requests_get_after, Hr, after_after.
  apply Nat.eqb_neq in Hcode. rewrite Hcode.
  rewrite print_flush_after, after_after. reflexivity.
Qed.

(** C7, where the code departs from it: with no cache file and a listing
    call that raises (no connection), nothing catches the exception;
    [find_low_rsi_coins] ends with it, no diagnostic line about the failure
    is written and no empty list is returned. *)
Theorem listing_connection_error_is_uncaught :
  find_low_rsi_coins
    (uniform_world None NoConnection NoConnection NoConnection) fresh
  = (Raise ConnectionError,
     after fresh [QueryingAll; FetchingPairs] [GetExchangeInfo])
  /\ get_usdt_pairs
       (uniform_world None NoConnection NoConnection NoConnection) fresh
     = (Raise ConnectionError, after fresh [FetchingPairs] [GetExchangeInfo]).
Proof. split; reflexivity. Qed.

(** C8: when the cache file exists, [get_usdt_pairs] returns its lines,
    each stripped of its line end, sends no request and leaves the file as
    it is, whatever the endpoints would answer; for a file written by the
    scanner itself the list returned is the list that was written. *)
Theorem cache_short_circuit w st content :
  coins_file st = Some content ->
  get_usdt_pairs w st
  = (Ok (map strip (readlines content)), after st [CoinsFileFound] [])
  /\ sent (snd (get_usdt_pairs w st)) = sent st
  /\ coins_file (snd (get_usdt_pairs w st)) = Some content
  /\ (forall pairs,
        forallb no_space pairs = true -> content = written pairs ->
        fst (get_usdt_pairs w st) = Ok pairs).
Proof.
  intros Hc.
  assert (E : get_usdt_pairs w st
              = (Ok (map strip (readlines content)),
                 after st [CoinsFileFound] [])).
  { unfold get_usdt_pairs, bind, read_coins_file.
    now rewrite Hc, print_flush_after. }
  rewrite E. split; [reflexivity|]. simpl.
  split; [apply app_nil_r|]. split; [assumption|].
  intros pairs Hp ->. now rewrite readlines_written.
Qed.

Lemma cache_short_circuit_witness :
  get_usdt_pairs
    (uniform_world None NoConnection NoConnection NoConnection)
    {| coins_file := Some (written ["BTCUSDT"; "ETHUSDT"]);
       console := []; sent := [] |}
  = (Ok (map strip (readlines (written ["BTCUSDT"; "ETHUSDT"]))),
     after {| coins_file := Some (written ["BTCUSDT"; "ETHUSDT"]);
              console := []; sent := [] |} [CoinsFileFound] []).
Proof.
  apply (cache_short_circuit
           (uniform_world None NoConnection NoConnection NoConnection)
           {| coins_file := Some (written ["BTCUSDT"; "ETHUSDT"]);
              console := []; sent := [] |}
           (written ["BTCUSDT"; "ETHUSDT"])).
  reflexivity.
Defined.

(** The lines written while fetching the klines are diagnostics. *)
Lemma fetch_and_calculate_rsi_lines w sym st :
  exists ls rs,
    snd (fetch_and_calculate_rsi w sym st) = after st ls rs
    /\ forallb (fun l => negb (is_match l)) ls = true.
Proof.
  unfold fetch_and_calculate_rsi, bind. rewrite requests_get_after.
  destruct (klines w sym) as [|code data].
  - now exists [], [GetKlines sym].
  - destruct (code =? 200)%nat.
    + destruct (_ || _).
      * rewrite print_flush_after, after_after.
        now exists [NotEnoughData sym], [GetKlines sym].
      * unfold from_py.
        destruct (calculate_precise_rsi data RSI_PERIOD);
          now exists [], [GetKlines sym].
    + rewrite print_flush_after, after_after.
      now exists [FailedData sym code], [GetKlines sym].
Qed.

(** C9 in general: when the price endpoint fails for a symbol (it raises,
    or answers with a status other than 200), [process_symbol] writes no
    match line for it, whatever its indicator is. *)
Lemma no_match_line_without_price w sym st :
  (ticker_price w sym = NoConnection
   \/ exists code body,
        ticker_price w sym = Response code body /\ code <> 200%nat) ->
  exists ls rs,
    process_symbol w sym st = (Ok tt, after st ls rs)
    /\ forallb (fun l => negb (is_match l)) ls = true.
Proof.
  intros Hprice.
  destruct (fetch_and_calculate_rsi_lines w sym st) as (ls & rs & Hst & Hls).
  unfold process_symbol, try_except, bind.
  destruct (fetch_and_calculate_rsi w sym st) as [[[v|]|e] st1];
    simpl in Hst; subst st1.
  - destruct (fl_ltb v (Fin RSI_THRESHOLD)); [|now exists ls, rs].
    unfold get_current_price, bind. rewrite requests_get_after, after_after.
    destruct Hprice as [-> | (code & body & -> & Hcode)].
    + eexists; eexists; split.
      * rewrite print_flush_after, after_after. reflexivity.
      * rewrite !forallb_app, Hls. reflexivity.
    + apply Nat.eqb_neq in Hcode. rewrite Hcode.
      eexists; eexists; split.
      * rewrite print_flush_after, after_after. cbn [ret match_line raise].
        rewrite print_flush_after, after_after. reflexivity.
      * rewrite !forallb_app, Hls. reflexivity.
  - now exists ls, rs.
  - eexists; eexists; split.
    + rewrite print_flush_after, after_after. reflexivity.
    + rewrite !forallb_app, Hls. reflexivity.
Qed.

(** C9, where the code departs from it: twenty closes falling from 20 to 1
    give the indicator 0, below the threshold 30; the price endpoint
    answers with status 500; [get_current_price] returns [None], the
    format [:.4f] of the match line raises on it, and the symbol ends with
    two diagnostic lines and no match line. *)
Theorem price_failure_drops_the_match :
  let w := uniform_world (Some "BTCUSDT") NoConnection
             (Response 200 (falling 20)) (Response 500 0) in
  (exists v,
     fst (fetch_and_calculate_rsi w "BTCUSDT" fresh) = Ok (Some v)
     /\ fl_ltb v (Fin RSI_THRESHOLD) = true)
  /\ process_symbol w "BTCUSDT" fresh
     = (Ok tt,
        after fresh
          [FailedPrice "BTCUSDT";
           ErrorOccurred "BTCUSDT" TypeError_format_None]
          [GetKlines "BTCUSDT"; GetPrice "BTCUSDT"])
  /\ forallb (fun l => negb (is_match l))
       (console (snd (process_symbol w "BTCUSDT" fresh))) = true.
Proof.
  cbv zeta. split; [|split].
  - eexists. split; vm_compute; reflexivity.
  - vm_compute. reflexivity.
  - vm_compute. reflexivity.
Qed.

(** Twenty closes falling by 1 give the indicator 0, which is below the
    threshold: with a price the match line is written. *)
Lemma falling_series_is_reported :
  exists q,
    process_symbol
      (uniform_world (Some "BTCUSDT") NoConnection
         (Response 200 (falling 20)) (Response 200 (5 # 2)))
      "BTCUSDT" fresh
    = (Ok tt,
       after fresh [Match "BTCUSDT" (Fin q) (5 # 2)]
         [GetKlines "BTCUSDT"; GetPrice "BTCUSDT"])
    /\ q == 0.
Proof. eexists. split; vm_compute; reflexivity. Qed.



End ScannerProperties.

(** ** How the steps of a symbol compose *)

Section Steady.

Local Open Scope string_scope.
Local Open Scope list_scope.

Lemma after_nil st : after st [] [] = st.
Proof. destruct st. unfold after; simpl. now rewrite !app_nil_r. Qed.

Lemma steady_ret (A : Type) (a : A) : steady (ret a).
Proof. exists (Ok a), [], []. intros st. now rewrite after_nil. Qed.

Lemma steady_raise (A : Type) e : steady (@raise A e).
Proof. exists (Raise e), [], []. intros st. now rewrite after_nil. Qed.

Lemma steady_print l : steady (print_flush l).
Proof. exists (Ok tt), [l], []. intros st. apply print_flush_after. Qed.

Lemma steady_get (A : Type) r (answer : reply A) :
  steady (requests_get r answer).
Proof. eexists; exists [], [r]. intros st. apply requests_get_after. Qed.

Lemma steady_bind (A B : Type) (m : M A) (k : A -> M B) :
  steady m -> (forall a, steady (k a)) -> steady (bind m k).
Proof.
  intros (r & ls & rs & Hm) Hk. destruct r as [a|e].
  - destruct (Hk a) as (r' & ls' & rs' & Hka).
    exists r', (ls ++ ls'), (rs ++ rs'). intros st.
    unfold bind. now rewrite Hm, Hka, after_after.
  - exists (Raise e), ls, rs. intros st. unfold bind. now rewrite Hm.
Qed.

Lemma steady_try (A : Type) (m : M A) (h : exn -> M A) :
  steady m -> (forall e, steady (h e)) -> steady (try_except m h).
Proof.
  intros (r & ls & rs & Hm) Hh. destruct r as [a|e].
  - exists (Ok a), ls, rs. intros st. unfold try_except. now rewrite Hm.
  - destruct (Hh e) as (r' & ls' & rs' & Hhe).
    exists r', (ls ++ ls'), (rs ++ rs'). intros st.
    unfold try_except. now rewrite Hm, Hhe, after_after.
Qed.

Ltac steady_step :=
  match goal with
  | |- steady (bind _ _) => apply steady_bind; [|intros ?]
  | |- steady (try_except _ _) => apply steady_try; [|intros ?]
  | |- steady (ret _) => apply steady_ret
  | |- steady (raise _) => apply steady_raise
  | |- steady (print_flush _) => apply steady_print
  | |- steady (requests_get _ _) => apply steady_get
  | |- steady (let (_, _) := ?p in _) => destruct p
  | |- steady (if ?b then _ else _) => destruct b
  | |- steady (match ?x with _ => _ end) => destruct x
  end.

Lemma steady_fetch w sym : steady (fetch_and_calculate_rsi w sym).
Proof. unfold fetch_and_calculate_rsi, from_py. repeat steady_step. Qed.

Lemma steady_price w sym : steady (get_current_price w sym).
Proof. unfold get_current_price. repeat steady_step. Qed.

Lemma steady_process_symbol w sym : steady (process_symbol w sym).
Proof.
  unfold process_symbol. apply steady_try; [|intros e; apply steady_print].
  apply steady_bind; [apply steady_fetch|]. intros [v|]; [|apply steady_ret].
  destruct (fl_ltb v (Fin RSI_THRESHOLD)); [|apply steady_ret].
  apply steady_bind; [apply steady_price|]. intros price.
  unfold match_line. repeat steady_step.
Qed.

Lemma process_symbol_ok w sym st : fst (process_symbol w sym st) = Ok tt.
Proof.
  unfold process_symbol, try_except.
  match goal with |- context [?m st] =>
    match m with bind _ _ => destruct (m st) as [[[]|e] st'] end end;
    reflexivity.
Qed.

(** [process_symbol] from any state: the result [Ok tt], and the lines and
    requests it has from the empty state, appended. *)
Lemma process_symbol_run w sym st :
  process_symbol w sym st
  = (Ok tt, after st (lines_of w sym) (requests_of w sym)).
Proof.
  destruct (steady_process_symbol w sym) as (r & ls & rs & H).
  unfold lines_of, requests_of. rewrite (H fresh). simpl.
  pose proof (process_symbol_ok w sym st) as Hok.
  rewrite H in Hok |- *. simpl in Hok. now subst r.
Qed.

Lemma executor_map_run w symbols st :
  executor_map (process_symbol w) symbols st
  = (Ok tt, after st (flat_map (lines_of w) symbols)
                     (flat_map (requests_of w) symbols)).
Proof.
  revert st; induction symbols as [|sym rest IH]; intros st; simpl.
  - unfold ret. now rewrite after_nil.
  - unfold bind. now rewrite process_symbol_run, IH, after_after.
Qed.

Lemma calculate_precise_rsi_default_ok data :
  exists v, calculate_precise_rsi data RSI_PERIOD = Ok v.
Proof.
  unfold calculate_precise_rsi, RSI_PERIOD, py_inv.
  destruct (smoothed _ data 14). now eexists.
Qed.

Lemma process_symbol_outcome w sym :
  outcome w sym (lines_of w sym) (requests_of w sym).
Proof.
  unfold lines_of, requests_of, process_symbol, try_except, bind,
    fetch_and_calculate_rsi, bind, requests_get.
  destruct (klines w sym) as [|code data] eqn:K; cbn -[calculate_precise_rsi].
  - now constructor.
  - destruct (Nat.eqb_spec code 200) as [->|Hcode]; cbn -[calculate_precise_rsi];
      [|now econstructor; eauto].
    rewrite enough_data_test.
    destruct (Nat.ltb_spec (length data) RSI_PERIOD) as [Hlt|Hge];
      cbn -[calculate_precise_rsi]; [now econstructor; eauto|].
    destruct (calculate_precise_rsi_default_ok data) as (v & Hv).
    rewrite Hv. cbn -[calculate_precise_rsi].
    destruct (fl_ltb v (Fin RSI_THRESHOLD)) eqn:Hb; cbn;
      [|now econstructor; eauto].
    unfold get_current_price, bind, requests_get. cbn.
    destruct (ticker_price w sym) as [|pcode price] eqn:P; cbn;
      [now econstructor; eauto|].
    destruct (Nat.eqb_spec pcode 200) as [->|Hp]; cbn;
      now econstructor; eauto.
Qed.

End Steady.

(** ** One symbol *)

(** Two answers of the same endpoint for the same symbol are one. *)
Ltac same_answers :=
  repeat match goal with
  | H1 : ?x = _, H2 : ?x = _ |- _ =>
      rewrite H1 in H2; inversion H2; subst; clear H2
  end.

Section OneSymbol.

Local Open Scope string_scope.
Local Open Scope list_scope.

Lemma outcome_requests w sym ls rs :
  outcome w sym ls rs ->
  rs = [GetKlines sym] \/ rs = [GetKlines sym; GetPrice sym].
Proof. intros H; inversion H; subst; auto. Qed.

Lemma outcome_lines_length w sym ls rs :
  outcome w sym ls rs -> (length ls <= 2)%nat.
Proof. intros H; inversion H; subst; simpl; lia. Qed.

Lemma outcome_match w sym ls rs s v p :
  outcome w sym ls rs ->
  (In (Match s v p) ls <-> s = sym /\ reportable w sym v p).
Proof.
  intros H. split.
  - intros Hin. inversion H; subst; simpl in Hin;
      repeat (destruct Hin as [Hin|Hin]; try discriminate); try contradiction.
    injection Hin as <- <- <-. split; [reflexivity|].
    eexists; eauto 6.
  - intros (-> & data & K & Hlen & Hv & Hb & P).
    inversion H; subst; same_answers;
      try discriminate; try lia; try congruence.
    now left.
Qed.

Lemma outcome_match_count w sym ls rs :
  outcome w sym ls rs -> (length (filter is_match ls) <= 1)%nat.
Proof. intros H; inversion H; subst; simpl; lia. Qed.

Lemma outcome_price_request w sym ls rs :
  outcome w sym ls rs ->
  (In (GetPrice sym) rs
   <-> exists data v,
         klines w sym = Response 200 data
         /\ (RSI_PERIOD <= length data)%nat
         /\ calculate_precise_rsi data RSI_PERIOD = Ok v
         /\ fl_ltb v (Fin RSI_THRESHOLD) = true).
Proof.
  intros H. split.
  - intros Hin. inversion H; subst; simpl in Hin;
      repeat (destruct Hin as [Hin|Hin]; try discriminate); try contradiction;
      eexists; eexists; eauto.
  - intros (data & v & K & Hlen & Hv & Hb).
    inversion H; subst; same_answers;
      try discriminate; try lia; try congruence; simpl; auto.
Qed.

(** X4: [process_symbol] is contained: from every state it returns normally,
    leaves the cache file as it is, appends at most two lines of which at
    most one is a match line, and sends the kline request of its symbol,
    followed at most by the price request of the same symbol. *)
Theorem process_symbol_is_contained w sym :
  exists ls rs,
    (forall st, process_symbol w sym st = (Ok tt, after st ls rs))
    /\ (length ls <= 2)%nat
    /\ (length (filter is_match ls) <= 1)%nat
    /\ (rs = [GetKlines sym] \/ rs = [GetKlines sym; GetPrice sym]).
Proof.
  exists (lines_of w sym), (requests_of w sym).
  pose proof (process_symbol_outcome w sym) as H.
  split; [intros st; apply process_symbol_run|].
  split; [eapply outcome_lines_length; eauto|].
  split; [eapply outcome_match_count; eauto|].
  eapply outcome_requests; eauto.
Qed.

(** X5: A match line is written for a symbol exactly when its klines come with
    status 200 and at least [RSI_PERIOD] closes, the indicator of these
    closes is below the threshold, and the price request is answered with
    status 200; the line then carries this symbol, this indicator and this
    price. *)
Theorem match_line_iff w sym st s v p :
  In (Match s v p) (console (snd (process_symbol w sym st)))
  <-> In (Match s v p) (console st) \/ (s = sym /\ reportable w sym v p).
Proof.
  rewrite process_symbol_run. simpl. rewrite in_app_iff.
  now rewrite (outcome_match w sym _ _ s v p (process_symbol_outcome w sym)).
Qed.

(** X6: The price of a symbol is requested exactly when its klines gave an
    indicator below the threshold; otherwise the kline request is the only
    one sent. *)
Theorem price_requested_iff_below_threshold w sym st :
  (In (GetPrice sym) (sent (snd (process_symbol w sym st)))
   <-> In (GetPrice sym) (sent st)
       \/ exists data v,
            klines w sym = Response 200 data
            /\ (RSI_PERIOD <= length data)%nat
            /\ calculate_precise_rsi data RSI_PERIOD = Ok v
            /\ fl_ltb v (Fin RSI_THRESHOLD) = true).
Proof.
  rewrite process_symbol_run. simpl. rewrite in_app_iff.
  now rewrite (outcome_price_request w sym _ _ (process_symbol_outcome w sym)).
Qed.

(** X7: When the kline request of a symbol fails, by an exception or by a
    status other than 200, the symbol ends with one diagnostic line, no
    price request and no exception. *)
Theorem kline_failure_is_contained w sym st :
  (klines w sym = NoConnection
   \/ exists code data, klines w sym = Response code data /\ code <> 200%nat) ->
  exists l,
    process_symbol w sym st = (Ok tt, after st [l] [GetKlines sym])
    /\ is_match l = false.
Proof.
  intros Hk. rewrite process_symbol_run.
  pose proof (process_symbol_outcome w sym) as H.
  set (ls := lines_of w sym) in *. set (rs := requests_of w sym) in *.
  clearbody ls rs.
  destruct Hk as [K | (code & data & K & Hcode)];
    destruct H; same_answers; try congruence;
    eexists; split; reflexivity.
Qed.

Lemma kline_failure_is_contained_witness :
  exists l,
    process_symbol
      (uniform_world None NoConnection (Response 500 []) NoConnection)
      "BTCUSDT" fresh
    = (Ok tt, after fresh [l] [GetKlines "BTCUSDT"])
    /\ is_match l = false.
Proof.
  apply (kline_failure_is_contained
           (uniform_world None NoConnection (Response 500 []) NoConnection)
           "BTCUSDT" fresh).
  right. exists 500%nat, []. split; [reflexivity | discriminate].
Defined.

End OneSymbol.

(** ** The universe and the scan *)

Section Scan.

Local Open Scope string_scope.
Local Open Scope list_scope.

Lemma substring_full s : substring 0 (String.length s) s = s.
Proof. induction s as [|c t IH]; simpl; [reflexivity | now rewrite IH]. Qed.

Lemma substring_skip pre m s :
  substring (String.length pre) m (pre ++ s)%string = substring 0 m s.
Proof. induction pre as [|c t IH]; simpl; [reflexivity | apply IH]. Qed.

Lemma string_length_app (a b : string) :
  String.length (a ++ b)%string = (String.length a + String.length b)%nat.
Proof. induction a as [|c t IH]; simpl; [reflexivity | now rewrite IH]. Qed.

Lemma substring_split s k :
  (k <= String.length s)%nat ->
  s = (substring 0 k s ++ substring k (String.length s - k) s)%string.
Proof.
  revert k; induction s as [|c t IH]; intros k Hk; simpl in Hk.
  - replace k with 0%nat by lia. reflexivity.
  - destruct k as [|k].
    + simpl. now rewrite substring_full.
    + simpl. rewrite <- IH by lia. reflexivity.
Qed.

(** [endswith] holds exactly of the strings that are something followed by
    the suffix. *)
Lemma endswith_spec s suffix :
  endswith s suffix = true <-> exists pre, s = (pre ++ suffix)%string.
Proof.
  unfold endswith. split.
  - intros H. apply andb_true_iff in H. destruct H as [Hle Heq].
    apply Nat.leb_le in Hle. apply String.eqb_eq in Heq.
    remember (String.length s - String.length suffix)%nat as k eqn:Ek.
    exists (substring 0 k s).
    assert (Hk : (k <= String.length s)%nat) by lia.
    pose proof (substring_split s k Hk) as E.
    replace (String.length s - k)%nat with (String.length suffix) in E by lia.
    now rewrite Heq in E.
  - intros (pre & ->). rewrite string_length_app.
    apply andb_true_iff. split; [apply Nat.leb_le; lia|].
    apply String.eqb_eq.
    replace (String.length pre + String.length suffix - String.length suffix)%nat
      with (String.length pre) by lia.
    rewrite substring_skip. apply substring_full.
Qed.

Lemma get_usdt_pairs_cached w st content :
  coins_file st = Some content ->
  get_usdt_pairs w st
  = (Ok (map strip (readlines content)), after st [CoinsFileFound] []).
Proof.
  intros Hc. unfold get_usdt_pairs, bind, read_coins_file.
  now rewrite Hc, print_flush_after.
Qed.


Lemma get_usdt_pairs_listed w st data :
  coins_file st = None -> exchange_info w = Response 200 data ->
  get_usdt_pairs w st
  = (Ok (listed_pairs data),
     {| coins_file := Some (written (listed_pairs data));
        console := console st
                   ++ [FetchingPairs; PairsFound (length (listed_pairs data))];
        sent := sent st ++ [GetExchangeInfo] |}).
Proof.
  intros Hc Hr. unfold get_usdt_pairs, bind, read_coins_file.
  rewrite Hc, print_flush_after, requests_get_after, Hr, after_after.
  cbn [Nat.eqb]. fold (listed_pairs data).
  rewrite print_flush_after, after_after.
  unfold write_coins_file, ret, after. simpl. reflexivity.
Qed.

Lemma blank_override w :
  all_space (getenv w "") = true -> find_low_rsi_coins w = query_all w.
Proof.
  intros H. unfold find_low_rsi_coins.
  apply strip_empty_iff in H. now rewrite H.
Qed.

Lemma set_override w :
  all_space (getenv w "") = false ->
  find_low_rsi_coins w = query_single w (upper (strip (getenv w ""))).
Proof.
  intros H. unfold find_low_rsi_coins.
  rewrite truthy_upper. destruct (strip (getenv w "")) eqn:E; [|reflexivity].
  apply strip_empty_iff in E. congruence.
Qed.

Lemma query_single_run w target st :
  query_single w target st
  = (Ok tt, after st (QueryingSingle target :: lines_of w target)
                     (requests_of w target)).
Proof.
  unfold query_single, bind.
  now rewrite print_flush_after, process_symbol_run, after_after.
Qed.

Lemma query_all_cached w st content :
  coins_file st = Some content ->
  query_all w st
  = (Ok tt,
     after st
       ([QueryingAll; CoinsFileFound]
        ++ flat_map (lines_of w) (map strip (readlines content)))
       (flat_map (requests_of w) (map strip (readlines content)))).
Proof.
  intros Hc. unfold query_all, bind.
  rewrite print_flush_after, (get_usdt_pairs_cached w _ content) by exact Hc.
  now rewrite executor_map_run, !after_after.
Qed.


Lemma query_all_refused w st code body :
  coins_file st = None -> exchange_info w = Response code body ->
  code <> 200%nat ->
  query_all w st
  = (Ok tt,
     after st [QueryingAll; FetchingPairs; FailedPairs] [GetExchangeInfo]).
Proof.
  intros Hc Hr Hcode. unfold query_all, bind.
  rewrite print_flush_after,
    (listing_bad_status_is_contained w _ code body) by assumption.
  rewrite after_after. simpl. unfold ret. reflexivity.
Qed.

Lemma query_all_listed w st data :
  coins_file st = None -> exchange_info w = Response 200 data ->
  query_all w st
  = (Ok tt,
     {| coins_file := Some (written (listed_pairs data));
        console := console st
                   ++ [QueryingAll; FetchingPairs;
                       PairsFound (length (listed_pairs data))]
                   ++ flat_map (lines_of w) (listed_pairs data);
        sent := sent st ++ [GetExchangeInfo]
                ++ flat_map (requests_of w) (listed_pairs data) |}).
Proof.
  intros Hc Hr. unfold query_all, bind.
  rewrite print_flush_after, (get_usdt_pairs_listed w _ data) by assumption.
  rewrite executor_map_run. unfold after; simpl.
  now rewrite <- !app_assoc.
Qed.

Lemma requests_of_klines w sym :
  filter is_klines_request (requests_of w sym) = [GetKlines sym].
Proof.
  destruct (outcome_requests _ _ _ _ (process_symbol_outcome w sym))
    as [-> | ->]; reflexivity.
Qed.

Lemma requests_of_no_listing w sym :
  ~ In GetExchangeInfo (requests_of w sym).
Proof.
  destruct (outcome_requests _ _ _ _ (process_symbol_outcome w sym))
    as [-> | ->]; simpl; intuition discriminate.
Qed.

Lemma filter_flat_map (A B : Type) (p : B -> bool) (f : A -> list B) l :
  filter p (flat_map f l) = flat_map (fun a => filter p (f a)) l.
Proof.
  induction l as [|a t IH]; simpl; [reflexivity|].
  now rewrite filter_app, IH.
Qed.

Lemma flat_map_singleton (A B : Type) (f : A -> B) l :
  flat_map (fun a => [f a]) l = map f l.
Proof. induction l as [|a t IH]; simpl; [reflexivity | now rewrite IH]. Qed.

Lemma flat_map_length_le (A B : Type) (f : A -> list B) l :
  (forall a, (length (f a) <= 1)%nat) ->
  (length (flat_map f l) <= length l)%nat.
Proof.
  intros H. induction l as [|a t IH]; simpl; [lia|].
  rewrite length_app. specialize (H a). lia.
Qed.

Lemma outcome_match_for w sym ls rs s :
  outcome w sym ls rs ->
  (length (filter (is_match_for s) ls)
   <= if string_dec sym s then 1 else 0)%nat.
Proof.
  intros H. inversion H; subst; simpl; try lia.
  destruct (string_dec sym s) as [->|Hne].
  - destruct (String.eqb s s); simpl; lia.
  - apply String.eqb_neq in Hne. rewrite Hne. simpl; lia.
Qed.

Lemma klines_requests_of_scan w symbols :
  filter is_klines_request (flat_map (requests_of w) symbols)
  = map GetKlines symbols.
Proof.
  rewrite filter_flat_map.
  rewrite (flat_map_ext _ (fun s => [GetKlines s])), flat_map_singleton;
    [reflexivity|].
  intros s. apply requests_of_klines.
Qed.

(** X8: the scan returns normally and leaves the cache file as it is; the
    kline requests it sends are those of the symbols of the list, one for
    each occurrence of a symbol, whatever happens to the other symbols;
    and it writes at most one match line for each occurrence of a
    symbol. *)
Theorem scan_asks_every_symbol_once w symbols :
  exists ls rs,
    (forall st,
       executor_map (process_symbol w) symbols st = (Ok tt, after st ls rs))
    /\ Permutation (filter is_klines_request rs) (map GetKlines symbols)
    /\ (forall s,
          (length (filter (is_match_for s) ls)
           <= count_occ string_dec symbols s)%nat).
Proof.
  exists (flat_map (lines_of w) symbols), (flat_map (requests_of w) symbols).
  split; [intros st; apply executor_map_run|]. split.
  - now rewrite klines_requests_of_scan.
  - intros s. induction symbols as [|a t IH]; simpl; [lia|].
    rewrite filter_app, length_app.
    pose proof (outcome_match_for w a _ _ s (process_symbol_outcome w a)) as H.
    destruct (string_dec a s); lia.
Qed.

(** X9: The match lines of a scan are those of the symbols of the list that
    have enough closes, an indicator below the threshold and a price: none
    is missing and none is made up. *)
Theorem scan_reports_exactly_the_reportable w symbols st s v p :
  In (Match s v p)
     (console (snd (executor_map (process_symbol w) symbols st)))
  <-> In (Match s v p) (console st)
      \/ (In s symbols /\ reportable w s v p).
Proof.
  rewrite executor_map_run. simpl. rewrite in_app_iff, in_flat_map.
  split; (intros [H|H]; [now left | right]).
  - destruct H as (sym & Hin & Hl).
    apply (outcome_match w sym _ _ s v p (process_symbol_outcome w sym)) in Hl.
    destruct Hl as [-> Hr]. now split.
  - destruct H as [Hin Hr]. exists s. split; [assumption|].
    now apply (outcome_match w s _ _ s v p (process_symbol_outcome w s)).
Qed.

Lemma scan_reports_exactly_the_reportable_witness :
  In (Match "BTCUSDT" (Fin (0 # 543199749370598218310933807104)) (5 # 2))
     (console
        (snd (executor_map
                (process_symbol
                   (uniform_world None NoConnection
                      (Response 200 (falling 20)) (Response 200 (5 # 2))))
                ["ETHUSDT"; "BTCUSDT"] fresh))).
Proof.
  apply (proj2 (scan_reports_exactly_the_reportable
                  (uniform_world None NoConnection
                     (Response 200 (falling 20)) (Response 200 (5 # 2)))
                  ["ETHUSDT"; "BTCUSDT"] fresh "BTCUSDT"
                  (Fin (0 # 543199749370598218310933807104)) (5 # 2))).
  right. split; [simpl; auto|].
  exists (falling 20). repeat split; try reflexivity.
  unfold RSI_PERIOD; simpl; lia.
Defined.

(** X12: With no cache file and a listing answered with status 200, the pairs
    returned are the symbols of the listing that end in USDT and have the
    status TRADING, and only those. *)
Theorem listed_pairs_are_the_trading_usdt_symbols w st data :
  coins_file st = None -> exchange_info w = Response 200 data ->
  exists pairs,
    fst (get_usdt_pairs w st) = Ok pairs
    /\ forall p,
         In p pairs
         <-> exists info pre,
               In info data /\ symbol info = p
               /\ p = (pre ++ "USDT")%string /\ status info = "TRADING".
Proof.
  intros Hc Hr. exists (listed_pairs data).
  rewrite (get_usdt_pairs_listed w st data Hc Hr). split; [reflexivity|].
  intros p. unfold listed_pairs. rewrite in_map_iff. split.
  - intros (info & <- & Hin). apply filter_In in Hin.
    destruct Hin as [Hin Hb]. apply andb_true_iff in Hb.
    destruct Hb as [He Hs]. apply endswith_spec in He.
    destruct He as (pre & He). apply String.eqb_eq in Hs.
    exists info, pre. auto.
  - intros (info & pre & Hin & <- & He & Hs). exists info.
    split; [reflexivity|]. apply filter_In. split; [assumption|].
    apply andb_true_iff. split.
    + apply endswith_spec. now exists pre.
    + now apply String.eqb_eq.
Qed.

Lemma listed_pairs_are_the_trading_usdt_symbols_witness :
  exists pairs,
    fst (get_usdt_pairs
           (uniform_world None
              (Response 200
                 [ {| symbol := "BTCUSDT"; status := "TRADING" |};
                   {| symbol := "ETHBTC"; status := "TRADING" |};
                   {| symbol := "XRPUSDT"; status := "BREAK" |} ])
              NoConnection NoConnection)
           fresh)
    = Ok pairs
    /\ forall p,
         In p pairs
         <-> exists info pre,
               In info
                  [ {| symbol := "BTCUSDT"; status := "TRADING" |};
                    {| symbol := "ETHBTC"; status := "TRADING" |};
                    {| symbol := "XRPUSDT"; status := "BREAK" |} ]
               /\ symbol info = p
               /\ p = (pre ++ "USDT")%string /\ status info = "TRADING".
Proof.
  apply (listed_pairs_are_the_trading_usdt_symbols
           (uniform_world None
              (Response 200
                 [ {| symbol := "BTCUSDT"; status := "TRADING" |};
                   {| symbol := "ETHBTC"; status := "TRADING" |};
                   {| symbol := "XRPUSDT"; status := "BREAK" |} ])
              NoConnection NoConnection)
           fresh); reflexivity.
Defined.

(** X13: A listing answered with status 200 is written to the cache file, also
    when no pair is kept; when no kept symbol holds white space, the next
    call, whatever the endpoints answer then, returns the same pairs from
    the file and sends no request. *)
Theorem listing_is_cached_and_reloaded w w' st data :
  coins_file st = None -> exchange_info w = Response 200 data ->
  forallb no_space (listed_pairs data) = true ->
  fst (get_usdt_pairs w st) = Ok (listed_pairs data)
  /\ coins_file (snd (get_usdt_pairs w st))
     = Some (written (listed_pairs data))
  /\ get_usdt_pairs w' (snd (get_usdt_pairs w st))
     = (Ok (listed_pairs data),
        after (snd (get_usdt_pairs w st)) [CoinsFileFound] []).
Proof.
  intros Hc Hr Hs. rewrite (get_usdt_pairs_listed w st data Hc Hr). simpl.
  split; [reflexivity|]. split; [reflexivity|].
  rewrite (get_usdt_pairs_cached w' _ (written (listed_pairs data)))
    by reflexivity.
  now rewrite readlines_written.
Qed.

Lemma listing_is_cached_and_reloaded_witness :
  let w := uniform_world None
             (Response 200
                [ {| symbol := "BTCUSDT"; status := "TRADING" |};
                  {| symbol := "ETHUSDT"; status := "TRADING" |} ])
             NoConnection NoConnection in
  let w' := uniform_world None NoConnection NoConnection NoConnection in
  get_usdt_pairs w' (snd (get_usdt_pairs w fresh))
  = (Ok ["BTCUSDT"; "ETHUSDT"],
     after (snd (get_usdt_pairs w fresh)) [CoinsFileFound] []).
Proof.
  cbv zeta.
  apply (listing_is_cached_and_reloaded
           (uniform_world None
              (Response 200
                 [ {| symbol := "BTCUSDT"; status := "TRADING" |};
                   {| symbol := "ETHUSDT"; status := "TRADING" |} ])
              NoConnection NoConnection)
           (uniform_world None NoConnection NoConnection NoConnection)
           fresh
           [ {| symbol := "BTCUSDT"; status := "TRADING" |};
             {| symbol := "ETHUSDT"; status := "TRADING" |} ]);
    reflexivity.
Defined.

(** X14: Once the cache file exists no run changes it or asks for the listing
    again: the run returns normally and only appends lines and requests,
    none of them the listing request. *)
Theorem cache_is_never_overwritten w st content :
  coins_file st = Some content ->
  exists ls rs,
    find_low_rsi_coins w st = (Ok tt, after st ls rs)
    /\ ~ In GetExchangeInfo rs.
Proof.
  intros Hc. destruct (all_space (getenv w "")) eqn:E.
  - rewrite (blank_override w E), (query_all_cached w st content Hc).
    eexists; eexists; split; [reflexivity|].
    rewrite in_flat_map. intros (sym & _ & Hin).
    exact (requests_of_no_listing w sym Hin).
  - rewrite (set_override w E), query_single_run.
    eexists; eexists; split; [reflexivity|]. apply requests_of_no_listing.
Qed.

Lemma cache_is_never_overwritten_witness :
  exists ls rs,
    find_low_rsi_coins
      (uniform_world None NoConnection NoConnection NoConnection)
      {| coins_file := Some (written ["BTCUSDT"]); console := []; sent := [] |}
    = (Ok tt,
       after {| coins_file := Some (written ["BTCUSDT"]);
                console := []; sent := [] |} ls rs)
    /\ ~ In GetExchangeInfo rs.
Proof.
  apply (cache_is_never_overwritten
           (uniform_world None NoConnection NoConnection NoConnection)
           {| coins_file := Some (written ["BTCUSDT"]);
              console := []; sent := [] |}
           (written ["BTCUSDT"])).
  reflexivity.
Defined.



(** X16: With no usable override and no cache file, a listing answered with a
    status other than 200 gives a scan of nothing: three lines, the one
    listing request, no symbol processed, and no cache file written, so
    that the next run asks again. *)
Theorem failed_listing_gives_empty_scan w st code body :
  all_space (getenv w "") = true ->
  coins_file st = None ->
  exchange_info w = Response code body -> code <> 200%nat ->
  find_low_rsi_coins w st
  = (Ok tt, after st [QueryingAll; FetchingPairs; FailedPairs]
                     [GetExchangeInfo])
  /\ coins_file (snd (find_low_rsi_coins w st)) = None.
Proof.
  intros E Hc Hr Hcode.
  rewrite (blank_override w E), (query_all_refused w st code body Hc Hr Hcode).
  split; [reflexivity | exact Hc].
Qed.

Lemma failed_listing_gives_empty_scan_witness :
  find_low_rsi_coins
    (uniform_world None (Response 503 []) NoConnection NoConnection) fresh
  = (Ok tt, after fresh [QueryingAll; FetchingPairs; FailedPairs]
                        [GetExchangeInfo])
  /\ coins_file
       (snd (find_low_rsi_coins
               (uniform_world None (Response 503 []) NoConnection
                  NoConnection) fresh))
     = None.
Proof.
  apply (failed_listing_gives_empty_scan
           (uniform_world None (Response 503 []) NoConnection NoConnection)
           fresh 503%nat []); try reflexivity.
  discriminate.
Defined.

(** X17: with an override that is not blank the run never looks at the
    universe: it returns normally, leaves the cache file as it is, starts
    with the line naming one symbol, not empty, and sends requests for
    this symbol only, its klines and at most its price; for an override
    of ASCII text this symbol is the override stripped and in upper
    case. *)
Theorem override_run_skips_universe w st :
  all_space (getenv w "") = false ->
  exists t ls rs,
    find_low_rsi_coins w st = (Ok tt, after st (QueryingSingle t :: ls) rs)
    /\ t <> ""
    /\ (rs = [GetKlines t] \/ rs = [GetKlines t; GetPrice t])
    /\ (ascii_text (getenv w "") = true -> t = upper (strip (getenv w ""))).
Proof.
  intros E. rewrite (set_override w E), query_single_run.
  exists (upper (strip (getenv w ""))).
  eexists; eexists; split; [reflexivity|]. split.
  - intros H. apply (f_equal truthy) in H. rewrite truthy_upper in H.
    simpl in H. apply truthy_false_iff, strip_empty_iff in H. congruence.
  - split; [eapply outcome_requests, process_symbol_outcome | reflexivity].
Qed.

Lemma override_run_skips_universe_witness :
  exists t ls rs,
    find_low_rsi_coins
      (uniform_world (Some " btcusdt ") NoConnection NoConnection
         NoConnection) fresh
    = (Ok tt, after fresh (QueryingSingle t :: ls) rs)
    /\ t <> ""
    /\ (rs = [GetKlines t] \/ rs = [GetKlines t; GetPrice t])
    /\ (ascii_text " btcusdt " = true -> t = "BTCUSDT").
Proof.
  exact (override_run_skips_universe
           (uniform_world (Some " btcusdt ") NoConnection NoConnection
              NoConnection) fresh eq_refl).
Defined.

(** X18: two runs in a row: when the first one, with no cache file, gets
    the listing with status 200 and no kept symbol holds white space, the
    second one, whatever the endpoints answer then, returns normally,
    never asks for the listing, and sends the kline requests of the pairs
    the first one kept, one for each. *)
Theorem second_run_reuses_universe w w' st data :
  all_space (getenv w "") = true -> all_space (getenv w' "") = true ->
  coins_file st = None -> exchange_info w = Response 200 data ->
  forallb no_space (listed_pairs data) = true ->
  exists ls rs,
    find_low_rsi_coins w' (snd (find_low_rsi_coins w st))
    = (Ok tt, after (snd (find_low_rsi_coins w st)) ls rs)
    /\ Permutation (filter is_klines_request rs)
                   (map GetKlines (listed_pairs data))
    /\ ~ In GetExchangeInfo rs.
Proof.
  intros E E' Hc Hr Hs.
  rewrite (blank_override w E), (blank_override w' E').
  rewrite (query_all_listed w st data Hc Hr). simpl.
  rewrite (query_all_cached w' _ (written (listed_pairs data))) by reflexivity.
  rewrite readlines_written by assumption.
  eexists; eexists; split; [reflexivity|]. split.
  - now rewrite klines_requests_of_scan.
  - rewrite in_flat_map. intros (sym & _ & Hin).
    exact (requests_of_no_listing w' sym Hin).
Qed.

Lemma second_run_reuses_universe_witness :
  let w := uniform_world None
             (Response 200
                [ {| symbol := "BTCUSDT"; status := "TRADING" |};
                  {| symbol := "ETHUSDT"; status := "TRADING" |} ])
             NoConnection NoConnection in
  let w' := uniform_world None NoConnection NoConnection NoConnection in
  exists ls rs,
    find_low_rsi_coins w' (snd (find_low_rsi_coins w fresh))
    = (Ok tt, after (snd (find_low_rsi_coins w fresh)) ls rs)
    /\ Permutation (filter is_klines_request rs)
                   (map GetKlines
                      (listed_pairs
                         [ {| symbol := "BTCUSDT"; status := "TRADING" |};
                           {| symbol := "ETHUSDT"; status := "TRADING" |} ]))
    /\ ~ In GetExchangeInfo rs.
Proof.
  cbv zeta.
  apply (second_run_reuses_universe
           (uniform_world None
              (Response 200
                 [ {| symbol := "BTCUSDT"; status := "TRADING" |};
                   {| symbol := "ETHUSDT"; status := "TRADING" |} ])
              NoConnection NoConnection)
           (uniform_world None NoConnection NoConnection NoConnection)
           fresh
           [ {| symbol := "BTCUSDT"; status := "TRADING" |};
             {| symbol := "ETHUSDT"; status := "TRADING" |} ]);
    reflexivity.
Defined.

End Scan.

(** ** The indicator as a function of the differences *)

Section ClosedForm.

Lemma fold_ema_Fin alpha ys a :
  fold_left (fun a g => ema (Fin alpha) g a) (map Fin ys) (Fin a)
  = Fin (wilder_fold alpha ys a).
Proof.
  unfold wilder_fold. revert a; induction ys as [|y t IH]; intros a;
    [reflexivity|].
  cbn [map fold_left]. rewrite ema_Fin. apply IH.
Qed.

Lemma final_gain_Fin prices period :
  (2 <= period)%nat -> (2 <= length prices)%nat ->
  ema_fold (Fin (alpha_of period)) (gain_of prices)
    (seq period (length prices - period)) (seed_gain prices period)
  = Fin (final_average period (map gain1 (successive_differences prices))).
Proof.
  intros Hp Hn. rewrite <- (gain_of_length prices) at 1.
  rewrite ema_fold_skipn, seed_gain_mean by assumption.
  destruct prices as [|p t]; [simpl in Hn; lia|].
  destruct period as [|k]; [lia|].
  rewrite gain_of_cons. cbn [skipn successive_differences].
  rewrite skipn_map, fold_ema_Fin. unfold final_average.
  now replace (S k - 1)%nat with k by lia.
Qed.

Lemma final_loss_Fin prices period :
  (2 <= period)%nat -> (2 <= length prices)%nat ->
  ema_fold (Fin (alpha_of period)) (loss_of prices)
    (seq period (length prices - period)) (seed_loss prices period)
  = Fin (final_average period (map loss1 (successive_differences prices))).
Proof.
  intros Hp Hn. rewrite <- (loss_of_length prices) at 1.
  rewrite ema_fold_skipn, seed_loss_mean by assumption.
  destruct prices as [|p t]; [simpl in Hn; lia|].
  destruct period as [|k]; [lia|].
  rewrite loss_of_cons. cbn [skipn successive_differences].
  rewrite skipn_map, fold_ema_Fin. unfold final_average.
  now replace (S k - 1)%nat with k by lia.
Qed.

Lemma rs_of_Fin g l :
  rs_of (Fin g) (Fin l) = Fin (if Qeq_bool l 0 then 0 else g / l).
Proof.
  unfold rs_of, fl_neb, fl_div. now destruct (Qeq_bool l 0).
Qed.

Lemma final_average_gain_nonneg prices period :
  (2 <= period)%nat -> (2 <= length prices)%nat ->
  0 <= final_average period (map gain1 (successive_differences prices)).
Proof.
  intros Hp Hn. pose proof (final_gain_nonneg prices period Hp Hn) as H.
  now rewrite final_gain_Fin in H.
Qed.

Lemma final_average_loss_nonneg prices period :
  (2 <= period)%nat -> (2 <= length prices)%nat ->
  0 <= final_average period (map loss1 (successive_differences prices)).
Proof.
  intros Hp Hn. pose proof (final_loss_nonneg prices period Hp Hn) as H.
  now rewrite final_loss_Fin in H.
Qed.

Lemma rs_q_nonneg g l :
  0 <= g -> 0 <= l -> 0 <= (if Qeq_bool l 0 then 0 else g / l).
Proof.
  intros Hg Hl. destruct (Qeq_bool l 0) eqn:E; [lra|].
  assert (~ l == 0) by (rewrite <- Qeq_bool_iff; congruence).
  apply Qle_shift_div_l; lra.
Qed.

Lemma calculate_precise_rsi_closed prices period :
  (2 <= period)%nat -> (2 <= length prices)%nat ->
  calculate_precise_rsi prices period
  = Ok (Fin (100 - 100 /
               (1 + (if Qeq_bool
                          (final_average period
                             (map loss1 (successive_differences prices))) 0
                     then 0
                     else final_average period
                            (map gain1 (successive_differences prices))
                          / final_average period
                              (map loss1 (successive_differences prices)))))).
Proof.
  intros Hp Hn. rewrite calculate_precise_rsi_fold by lia.
  rewrite final_gain_Fin, final_loss_Fin, rs_of_Fin by assumption.
  rewrite rsi_of_rs_Fin; [reflexivity|].
  apply rs_q_nonneg;
    [now apply final_average_gain_nonneg | now apply final_average_loss_nonneg].
Qed.

End ClosedForm.

(** ** When the indicator is 0, and when it is NaN *)

Section Extremes.

Local Open Scope string_scope.
Local Open Scope list_scope.
Local Open Scope Q_scope.

Lemma alpha_of_lt_1 period : (2 <= period)%nat -> alpha_of period < 1.
Proof.
  intros Hp. unfold alpha_of.
  assert (H2 : 2 <= inject_Z (Z.of_nat period)).
  { change 2 with (inject_Z 2). rewrite <- Zle_Qle. lia. }
  apply Qlt_shift_div_r; lra.
Qed.

Lemma fold_plus_zero_inv v a :
  0 <= a -> Forall (fun x => 0 <= x) v -> fold_left Qplus v a == 0 ->
  a == 0 /\ Forall (fun x => x == 0) v.
Proof.
  revert a; induction v as [|x t IH]; intros a Ha Hv H; simpl in H.
  - split; [assumption | constructor].
  - inversion Hv as [|? ? Hx Ht]; subst.
    destruct (IH (a + x)) as [Hax Hall]; [lra | assumption | assumption |].
    split; [lra|]. constructor; [lra | assumption].
Qed.

Lemma arithmetic_mean_zero_iff v :
  v <> [] -> Forall (fun x => 0 <= x) v ->
  (arithmetic_mean v == 0 <-> Forall (fun x => x == 0) v).
Proof.
  intros Hne Hv. split; [|apply arithmetic_mean_zero].
  intros H. unfold arithmetic_mean, Qsum in H.
  assert (Hpos : 0 < inject_Z (Z.of_nat (length v))).
  { apply inject_nat_pos. destruct v; [congruence | simpl; lia]. }
  assert (Hs : fold_left Qplus v 0 == 0).
  { assert (E : fold_left Qplus v 0
                == fold_left Qplus v 0 / inject_Z (Z.of_nat (length v))
                   * inject_Z (Z.of_nat (length v))) by (field; lra).
    rewrite E, H. ring. }
  apply (fold_plus_zero_inv v 0); [lra | assumption | assumption].
Qed.

Lemma wilder_fold_nonneg alpha xs a :
  0 <= alpha -> alpha <= 1 -> 0 <= a -> Forall (fun x => 0 <= x) xs ->
  0 <= wilder_fold alpha xs a.
Proof.
  intros A0 A1. unfold wilder_fold.
  revert a; induction xs as [|x t IH]; intros a Ha Hx; simpl; [assumption|].
  inversion Hx; subst. apply IH; [|assumption].
  assert (0 <= x * alpha) by (apply Qmult_le_0_compat; lra).
  assert (0 <= a * (1 - alpha)) by (apply Qmult_le_0_compat; lra).
  lra.
Qed.

Lemma wilder_fold_zero_iff alpha xs a :
  0 < alpha -> alpha < 1 -> 0 <= a -> Forall (fun x => 0 <= x) xs ->
  (wilder_fold alpha xs a == 0 <-> a == 0 /\ Forall (fun x => x == 0) xs).
Proof.
  intros A0 A1. unfold wilder_fold.
  revert a; induction xs as [|x t IH]; intros a Ha Hx; simpl.
  - split; [intros H; split; [assumption | constructor] | tauto].
  - inversion Hx as [|? ? Hx0 Ht]; subst.
    assert (H1 : 0 <= x * alpha) by (apply Qmult_le_0_compat; lra).
    assert (H2 : 0 <= a * (1 - alpha)) by (apply Qmult_le_0_compat; lra).
    rewrite IH by (assumption || lra). split.
    + intros [Hs Hall].
      assert (Hxa : x * alpha == 0) by lra.
      assert (Haa : a * (1 - alpha) == 0) by lra.
      assert (Hx' : x == 0).
      { destruct (Qmult_integral _ _ Hxa); [assumption | lra]. }
      assert (Ha' : a == 0).
      { destruct (Qmult_integral _ _ Haa); [assumption | lra]. }
      split; [assumption|]. constructor; assumption.
    + intros [Ha' Hall]. inversion Hall as [|? ? Hx' Ht']; subst.
      split; [|assumption]. rewrite Hx', Ha'. ring.
Qed.

Lemma Forall_firstn_skipn (A : Type) (P : A -> Prop) k l :
  Forall P (firstn k l) /\ Forall P (skipn k l) <-> Forall P l.
Proof.
  rewrite <- (firstn_skipn k l) at 3. now rewrite Forall_app.
Qed.

Lemma final_average_zero_iff period xs :
  (2 <= period)%nat -> xs <> [] -> Forall (fun x => 0 <= x) xs ->
  (final_average period xs == 0 <-> Forall (fun x => x == 0) xs).
Proof.
  intros Hp Hne Hx. unfold final_average.
  destruct (alpha_of_bounds period) as [A0 _]; [lia|].
  pose proof (alpha_of_lt_1 period Hp) as A1.
  apply (Forall_firstn_skipn _ _ (period - 1)) in Hx.
  destruct Hx as [Hf Hs].
  assert (Hfne : firstn (period - 1) xs <> []).
  { apply firstn_nonempty; [lia|]. destruct xs; [congruence | simpl; lia]. }
  rewrite wilder_fold_zero_iff;
    [| assumption | assumption
     | now apply arithmetic_mean_nonneg | assumption].
  rewrite arithmetic_mean_zero_iff by assumption.
  apply Forall_firstn_skipn.
Qed.

Lemma gain1_zero_iff d : gain1 d == 0 <-> d <= 0.
Proof.
  unfold gain1. destruct (Qle_bool 0 d) eqn:E; simpl.
  - apply Qle_bool_iff in E. split; lra.
  - assert (~ 0 <= d) by (rewrite <- Qle_bool_iff; congruence).
    split; lra.
Qed.

Lemma loss1_zero_iff d : loss1 d == 0 <-> 0 <= d.
Proof.
  unfold loss1. destruct (Qle_bool d 0) eqn:E; simpl.
  - apply Qle_bool_iff in E. split; lra.
  - assert (~ d <= 0) by (rewrite <- Qle_bool_iff; congruence).
    split; lra.
Qed.

Lemma Forall_map_iff (A B : Type) (f : A -> B) (P : B -> Prop) l :
  Forall P (map f l) <-> Forall (fun a => P (f a)) l.
Proof.
  induction l as [|a t IH]; simpl.
  - split; constructor.
  - split; intros H; inversion H; subst; constructor; tauto.
Qed.

Lemma Forall_iff (A : Type) (P R : A -> Prop) l :
  (forall a, P a <-> R a) -> (Forall P l <-> Forall R l).
Proof.
  intros H. split; intros HF; eapply Forall_impl; try exact HF;
    intros a; apply H.
Qed.

Lemma successive_differences_Forall (P : Q -> Prop) prices :
  Forall P (successive_differences prices)
  <-> forall i, (1 <= i)%nat -> (i < length prices)%nat ->
                P (nth i prices 0 - nth (i - 1) prices 0).
Proof.
  destruct prices as [|p t]; cbn [successive_differences].
  - split; [intros _ i _ Hi; simpl in Hi; lia | constructor].
  - split.
    + intros H i H1 Hi. simpl in Hi. destruct i as [|j]; [lia|].
      replace (S j - 1)%nat with j by lia.
      change (nth (S j) (p :: t) 0) with (nth j t 0).
      rewrite <- (nth_deltas_from p t j) by lia.
      apply Forall_nth_in; [assumption|]. rewrite deltas_from_length; lia.
    + intros H. apply Forall_forall. intros d Hd.
      destruct (In_nth _ _ 0 Hd) as (j & Hj & <-).
      rewrite deltas_from_length in Hj. rewrite nth_deltas_from by assumption.
      specialize (H (S j)). replace (S j - 1)%nat with j in H by lia.
      change (nth (S j) (p :: t) 0) with (nth j t 0) in H.
      apply H; simpl; lia.
Qed.

Lemma no_decrease_iff prices :
  no_decrease_from 1 prices
  <-> Forall (fun d => loss1 d == 0) (successive_differences prices).
Proof.
  rewrite successive_differences_Forall. unfold no_decrease_from.
  split; intros H i H1 Hi; specialize (H i H1 Hi).
  - apply loss1_zero_iff. lra.
  - apply loss1_zero_iff in H. lra.
Qed.

Lemma no_increase_iff prices :
  no_increase_from 1 prices
  <-> Forall (fun d => gain1 d == 0) (successive_differences prices).
Proof.
  rewrite successive_differences_Forall. unfold no_increase_from.
  split; intros H i H1 Hi; specialize (H i H1 Hi).
  - apply gain1_zero_iff. lra.
  - apply gain1_zero_iff in H. lra.
Qed.

Lemma differences_nonempty prices :
  (2 <= length prices)%nat -> successive_differences prices <> [].
Proof.
  intros Hn E. apply (f_equal (@length Q)) in E.
  rewrite successive_differences_length in E. simpl in E. lia.
Qed.

Lemma rsi_q_zero_iff g l :
  0 <= g -> 0 <= l ->
  (100 - 100 / (1 + (if Qeq_bool l 0 then 0 else g / l)) == 0
   <-> l == 0 \/ g == 0).
Proof.
  intros Hg Hl. destruct (Qeq_bool l 0) eqn:E.
  - apply Qeq_bool_iff in E. split; [now left|]. intros _. field.
  - assert (Hl0 : ~ l == 0) by (rewrite <- Qeq_bool_iff; congruence).
    assert (Hq : 100 - 100 / (1 + g / l) == 100 * g / (g + l))
      by (field; split; lra).
    rewrite Hq. split.
    + intros H. right.
      assert (H' : 100 * g == 100 * g / (g + l) * (g + l)) by (field; lra).
      rewrite H in H'. lra.
    + intros [H|H]; [contradiction|]. rewrite H. field. lra.
Qed.

Lemma calculate_precise_rsi_zero_iff prices period :
  (2 <= period)%nat -> (2 <= length prices)%nat ->
  exists q,
    calculate_precise_rsi prices period = Ok (Fin q)
    /\ (q == 0 <-> no_decrease_from 1 prices \/ no_increase_from 1 prices).
Proof.
  intros Hp Hn. rewrite calculate_precise_rsi_closed by assumption.
  eexists. split; [reflexivity|].
  rewrite rsi_q_zero_iff
    by (now apply final_average_gain_nonneg
        || now apply final_average_loss_nonneg).
  pose proof (differences_nonempty prices Hn) as Hne.
  rewrite !final_average_zero_iff;
    try assumption;
    try (intros E; apply map_eq_nil in E; contradiction);
    try (apply Forall_map_all; intros; apply gain1_nonneg || apply loss1_nonneg).
  now rewrite !Forall_map_iff, <- no_decrease_iff, <- no_increase_iff.
Qed.

(** X2: for a period of at least 2 and at least two closes, the indicator
    is 0 when the closes never go down, and also when they never go up: a
    series that only rises, or stays flat, scores 0 just as one that only
    falls. *)
Theorem one_sided_series_scores_zero prices period :
  (2 <= period)%nat -> (2 <= length prices)%nat ->
  no_decrease_from 1 prices \/ no_increase_from 1 prices ->
  exists q, calculate_precise_rsi prices period = Ok (Fin q) /\ q == 0.
Proof.
  intros Hp Hn Hside.
  destruct (calculate_precise_rsi_zero_iff prices period Hp Hn)
    as (q & Hq & Hz).
  exists q. split; [assumption | now apply Hz].
Qed.

Lemma one_sided_series_scores_zero_witness :
  exists q, calculate_precise_rsi (falling 20) RSI_PERIOD = Ok (Fin q)
            /\ q == 0.
Proof.
  apply (one_sided_series_scores_zero (falling 20) RSI_PERIOD).
  - unfold RSI_PERIOD; lia.
  - simpl; lia.
  - right. intros i H1 H2. simpl in H2.
    do 20 (destruct i as [|i]; [try lia; vm_compute; discriminate|]). lia.
Defined.

End Extremes.

(** ** Degenerate windows, and what gets reported *)

Section Reports.

Local Open Scope string_scope.
Local Open Scope list_scope.
Local Open Scope Q_scope.

Lemma ema_NaN alpha c : ema alpha c NaN = NaN.
Proof. unfold ema. simpl. now destruct (fl_mul c alpha). Qed.

Lemma ema_fold_NaN alpha s idxs : ema_fold alpha s idxs NaN = NaN.
Proof.
  unfold ema_fold. induction idxs as [|i t IH]; simpl; [reflexivity|].
  now rewrite ema_NaN.
Qed.

Lemma mean_head_degenerate (s : Pandas.series) period :
  (period <= 1)%nat \/ (length s <= 1)%nat ->
  Pandas.iloc s 0 = NaN ->
  Pandas.mean (Pandas.head period s) = NaN.
Proof.
  intros H H0. unfold Pandas.head.
  destruct s as [|x t]; [now rewrite firstn_nil|].
  unfold Pandas.iloc in H0; simpl in H0; subst x.
  destruct period as [|[|k]]; try reflexivity.
  destruct H as [H|H]; [lia|]. destruct t; [reflexivity | simpl in H; lia].
Qed.

Lemma iloc_0_gain_of prices : Pandas.iloc (gain_of prices) 0 = NaN.
Proof. destruct prices; [reflexivity | now rewrite gain_of_cons]. Qed.

Lemma iloc_0_loss_of prices : Pandas.iloc (loss_of prices) 0 = NaN.
Proof. destruct prices; [reflexivity | now rewrite loss_of_cons]. Qed.

(** X3: The window of the seed holds no difference when the period is 0 or 1,
    or when there is at most one close: with the period 0 the division
    [1 / period] raises; otherwise both seeds are NaN, every average after
    them is NaN, and NaN is returned. *)
Theorem degenerate_window_gives_nan prices period :
  (period <= 1)%nat \/ (length prices <= 1)%nat ->
  calculate_precise_rsi prices period
  = match period with
    | O => Raise ZeroDivisionError
    | S _ => Ok NaN
    end.
Proof.
  intros H. destruct period as [|k]; [reflexivity|].
  rewrite calculate_precise_rsi_fold by lia.
  unfold seed_gain, seed_loss.
  rewrite !mean_head_degenerate;
    try apply iloc_0_gain_of; try apply iloc_0_loss_of;
    try (rewrite ?gain_of_length, ?loss_of_length; exact H).
  now rewrite !ema_fold_NaN.
Qed.

Lemma degenerate_window_gives_nan_witness :
  calculate_precise_rsi [3; 1; 2; 3; 4] 1 = Ok NaN.
Proof.
  apply (degenerate_window_gives_nan [3; 1; 2; 3; 4] 1). left. lia.
Defined.

Lemma reportable_run w sym st v p :
  reportable w sym v p ->
  process_symbol w sym st
  = (Ok tt, after st [Match sym v p] [GetKlines sym; GetPrice sym]).
Proof.
  intros (data & K & Hlen & Hv & Hb & P). rewrite process_symbol_run.
  pose proof (process_symbol_outcome w sym) as H.
  set (ls := lines_of w sym) in *. set (rs := requests_of w sym) in *.
  clearbody ls rs.
  destruct H; same_answers; try discriminate; try lia; try congruence.
Qed.

Lemma below_threshold_of_zero q :
  q == 0 -> fl_ltb (Fin q) (Fin RSI_THRESHOLD) = true.
Proof.
  intros H. unfold fl_ltb, RSI_THRESHOLD.
  destruct (Qle_bool 30 q) eqn:E; [|reflexivity].
  apply Qle_bool_iff in E. lra.
Qed.

(** X11: A symbol whose closes, at least [RSI_PERIOD] of them, never go down,
    or never go up, has the indicator 0 and is reported as below the
    threshold as soon as its price is available. *)
Theorem one_sided_series_is_reported w sym st data price :
  klines w sym = Response 200 data ->
  (RSI_PERIOD <= length data)%nat ->
  no_decrease_from 1 data \/ no_increase_from 1 data ->
  ticker_price w sym = Response 200 price ->
  exists q,
    q == 0
    /\ process_symbol w sym st
       = (Ok tt, after st [Match sym (Fin q) price]
                          [GetKlines sym; GetPrice sym]).
Proof.
  intros K Hlen Hside P.
  destruct (calculate_precise_rsi_zero_iff data RSI_PERIOD)
    as (q & Hq & Hz); [unfold RSI_PERIOD; lia
                      | unfold RSI_PERIOD in Hlen; lia |].
  apply Hz in Hside. exists q. split; [assumption|].
  apply reportable_run. exists data.
  repeat split; try assumption. now apply below_threshold_of_zero.
Qed.

Lemma one_sided_series_is_reported_witness :
  exists q,
    q == 0
    /\ process_symbol
         (uniform_world None NoConnection (Response 200 (repeat 7 14))
            (Response 200 (5 # 2)))
         "BTCUSDT" fresh
       = (Ok tt, after fresh [Match "BTCUSDT" (Fin q) (5 # 2)]
                             [GetKlines "BTCUSDT"; GetPrice "BTCUSDT"]).
Proof.
  apply (one_sided_series_is_reported
           (uniform_world None NoConnection (Response 200 (repeat 7 14))
              (Response 200 (5 # 2)))
           "BTCUSDT" fresh (repeat 7 14) (5 # 2)).
  - reflexivity.
  - unfold RSI_PERIOD; simpl; lia.
  - left. intros i H1 H2. simpl in H2.
    do 14 (destruct i as [|i]; [vm_compute; discriminate|]). lia.
  - reflexivity.
Defined.

Lemma reportable_finite w sym v p :
  reportable w sym v p -> exists q, v = Fin q /\ 0 <= q /\ q < 30.
Proof.
  intros (data & K & Hlen & Hv & Hb & P).
  destruct (calculate_precise_rsi_range data RSI_PERIOD)
    as (q & Hq & H0 & _); [unfold RSI_PERIOD; lia
                          | unfold RSI_PERIOD in Hlen; lia |].
  rewrite Hq in Hv. injection Hv as <-. exists q.
  split; [reflexivity|]. split; [assumption|].
  unfold fl_ltb, RSI_THRESHOLD in Hb. apply negb_true_iff in Hb.
  destruct (Qlt_le_dec q 30) as [Hlt|Hge]; [assumption|].
  apply Qle_bool_iff in Hge. congruence.
Qed.

(** X10: Every match line a scan adds carries a finite indicator, at least 0
    and strictly below the threshold 30: NaN, an infinity or a value of 30
    or more is never reported. *)
Theorem reported_indicator_is_finite_and_below_threshold w symbols st s v p :
  In (Match s v p)
     (console (snd (executor_map (process_symbol w) symbols st))) ->
  ~ In (Match s v p) (console st) ->
  exists q, v = Fin q /\ 0 <= q /\ q < 30.
Proof.
  rewrite executor_map_run. simpl. rewrite in_app_iff, in_flat_map.
  intros [H|(sym & _ & Hl)] Hnew; [contradiction|].
  apply (outcome_match w sym _ _ s v p (process_symbol_outcome w sym)) in Hl.
  destruct Hl as [-> Hr]. eapply reportable_finite; eauto.
Qed.

Lemma reported_indicator_is_finite_and_below_threshold_witness :
  exists q,
    Fin (0 # 543199749370598218310933807104) = Fin q /\ 0 <= q /\ q < 30.
Proof.
  apply (reported_indicator_is_finite_and_below_threshold
           (uniform_world None NoConnection
              (Response 200 (falling 20)) (Response 200 (5 # 2)))
           ["BTCUSDT"] fresh "BTCUSDT"
           (Fin (0 # 543199749370598218310933807104)) (5 # 2)).
  - vm_compute. left. reflexivity.
  - simpl. tauto.
Defined.

Lemma match_line_iff_witness :
  In (Match "BTCUSDT" (Fin (0 # 543199749370598218310933807104)) (5 # 2))
     (console
        (snd (process_symbol
                (uniform_world None NoConnection
                   (Response 200 (falling 20)) (Response 200 (5 # 2)))
                "BTCUSDT" fresh))).
Proof.
  apply (proj2 (match_line_iff
                  (uniform_world None NoConnection
                     (Response 200 (falling 20)) (Response 200 (5 # 2)))
                  "BTCUSDT" fresh "BTCUSDT"
                  (Fin (0 # 543199749370598218310933807104)) (5 # 2))).
  right. split; [reflexivity|].
  exists (falling 20). repeat split; try reflexivity.
  unfold RSI_PERIOD; simpl; lia.
Defined.

Lemma price_requested_iff_below_threshold_witness :
  In (GetPrice "BTCUSDT")
     (sent
        (snd (process_symbol
                (uniform_world None NoConnection
                   (Response 200 (falling 20)) NoConnection)
                "BTCUSDT" fresh))).
Proof.
  apply (proj2 (price_requested_iff_below_threshold
                  (uniform_world None NoConnection
                     (Response 200 (falling 20)) NoConnection)
                  "BTCUSDT" fresh)).
  right. exists (falling 20), (Fin (0 # 543199749370598218310933807104)).
  repeat split; try reflexivity.
  unfold RSI_PERIOD; simpl; lia.
Defined.

End Reports.
